(** * Spacegun: the Kubernetes cluster gateway, the dashboard and the cache

    A shallow embedding of [KubernetesClusterRepository] (the cluster
    gateway), of the dashboard's [Module.index] handler and of the TTL
    cache the gateway memoises its namespace listing with.

    Conventions of the embedding:
    - a JavaScript object of a known class is a record; a field the
      TypeScript type marks optional, or that [minifyDeployment] leaves
      out, is an [option];
    - an [async] method is a computation in the monad [M]: it threads the
      state of the outside world (the Kubernetes API server, the clock),
      logs every API call and every event handed to the event sink, and
      ends either with a value or with a thrown exception;
    - an object keeps its keys in the order in which they were set, and
      [JSON.stringify] prints them in that order: where the code compares
      texts, the order is part of the object (the entries of the
      annotations, the keys of a deployment's spec);
    - the Kubernetes client, [JSON.stringify] and [moment] are not part of
      the repository: they are parameters. *)

From stdpp Require Import gmap strings list.
From Stdlib Require Import String Ascii ZArith Bool List Lia.
Import ListNotations.

Set Implicit Arguments.

Open Scope string_scope.
Open Scope list_scope.

(** ** JavaScript strings *)

(** [s.split(sep)] for a separator that matches exactly one character:
    the pieces between the matches, in order. The result is never empty;
    the empty string splits into one empty piece. *)
Fixpoint split (sep : ascii -> bool) (s : string) : list string :=
  match s with
  | EmptyString => [EmptyString]
  | String c rest =>
      if sep c then EmptyString :: split sep rest
      else match split sep rest with
           | [] => [String c EmptyString]
           | piece :: pieces => String c piece :: pieces
           end
  end.

(** The regular expression [/@|:/]. *)
Definition isAtOrColon (c : ascii) : bool :=
  (Ascii.eqb c "@" || Ascii.eqb c ":")%bool.

(** The separator ["/"]. *)
Definition isSlash (c : ascii) : bool := Ascii.eqb c "/".

(** [a[0]] and [a[a.length - 1]] on an array of strings; on the arrays
    [split] returns both are defined. *)
Definition first (a : list string) : string := List.hd EmptyString a.
Definition lastOf (a : list string) : string := List.last a EmptyString.

(** A template literal prints an absent value as [undefined]. *)
Definition interpolate (v : option string) : string :=
  match v with
  | Some s => s
  | None => "undefined"
  end.

(** ** Data model *)

(** [model/Image]: the url of a container image and the name derived
    from it. *)
Record Image := mkImage {
  image_url : string;
  image_name : string;
  image_tag : option string
}.

(** [model/Deployment] *)
Record Deployment := mkDeployment {
  deployment_name : string;
  deployment_image : option Image
}.

(** [model/ServerGroup] *)
Record ServerGroup := mkServerGroup {
  group_cluster : string;
  group_namespace : option string
}.

(** [model/Pod] *)
Record Pod := mkPod {
  pod_name : string;
  pod_image : option Image;
  pod_restarts : option Z;
  pod_ready : bool
}.

(** [model/Scaler] *)
Record Replicas := mkReplicas {
  replicas_current : Z;
  replicas_minimum : Z;
  replicas_maximum : Z
}.

Record Scaler := mkScaler {
  scaler_name : string;
  scaler_replicas : Replicas
}.

(** A field of an event. *)
Record Field := mkField {
  field_value : string;
  field_title : string
}.

(** The argument of [eventModule.log]. *)
Record Event := mkEvent {
  event_message : string;
  event_timestamp : Z;
  event_topics : list string;
  event_description : string;
  event_fields : list Field
}.

(** What a JavaScript computation can throw. *)
Inductive Exn :=
| TypeError (message : string)
| Error (message : string)
| Rejected (message : string).

Definition exn_message (e : Exn) : string :=
  match e with
  | TypeError m | Error m | Rejected m => m
  end.

Inductive Result (A : Type) :=
| Ok (a : A)
| Throw (e : Exn).
Arguments Ok {A} a.
Arguments Throw {A} e.

(** ** Objects of the Kubernetes client

    [Json] stands for the content of the fields the gateway copies but
    never looks into. An object of JavaScript keeps its keys in the order
    in which they were set, and [JSON.stringify] prints them in that
    order: the annotations are the list of their entries in that order,
    and the spec of a deployment carries the order of its keys
    ([spec_keys]). Two objects with the same fields in another order are
    different values here, as they print differently there. *)
Section KubernetesObjects.

Variable Json : Type.

Record V1ObjectMeta := mkMeta {
  meta_name : string;
  meta_namespace : option string;
  meta_annotations : option (list (string * string));
  (* labels, uid, resourceVersion, creationTimestamp, ... *)
  meta_other : option Json
}.

Record V1Container := mkContainer {
  container_image : string;
  (* name, ports, env, resources, ... *)
  container_other : Json
}.

Record V1PodSpec := mkPodSpec {
  containers : list V1Container;
  podSpec_other : Json
}.

Record V1PodTemplateSpec := mkTemplate {
  template_metadata : option Json;
  template_spec : V1PodSpec
}.

Record V1beta2DeploymentSpec := mkSpec {
  spec_template : V1PodTemplateSpec;
  (* replicas, selector, strategy, ... *)
  spec_other : Json;
  (* the keys of the spec and of the objects in it, in the order in which
     [JSON.stringify] comes to them *)
  spec_keys : list string
}.

Record V1beta2Deployment := mkV1Deployment {
  apiVersion : option string;
  kind : option string;
  metadata : V1ObjectMeta;
  spec : V1beta2DeploymentSpec;
  (* assigned by the server *)
  status : option Json
}.

Record V1ContainerStatus := mkContainerStatus {
  restartCount : Z
}.

Record V1PodCondition := mkCondition {
  condition_type : string;
  condition_status : string
}.

Record V1PodStatus := mkPodStatus {
  containerStatuses : option (list V1ContainerStatus);
  conditions : option (list V1PodCondition)
}.

Record V1Pod := mkV1Pod {
  v1pod_metadata : V1ObjectMeta;
  v1pod_spec : V1PodSpec;
  v1pod_status : V1PodStatus
}.

Record V1HorizontalPodAutoscaler := mkHpa {
  hpa_metadata : V1ObjectMeta;
  hpa_minReplicas : Z;
  hpa_maxReplicas : Z;
  hpa_currentReplicas : Z
}.

Record V1Namespace := mkNamespace {
  namespace_metadata : V1ObjectMeta
}.

(** [model/ClusterSnapshot]: the recorded deployments, in order. The
    [data] of an entry is what [applySnapshot] casts to
    [V1beta2Deployment]. *)
Record SnapshotDeployment := mkSnapshotDeployment {
  snapshot_name : string;
  snapshot_data : V1beta2Deployment
}.

Record ClusterSnapshot := mkSnapshot {
  deployments_of : list SnapshotDeployment
}.

(** ** Pure helpers of the gateway *)

(** [getNamespace]: [group.namespace || "default"]. The empty string is
    falsy, too. *)
Definition getNamespace (group : ServerGroup) : string :=
  match group_namespace group with
  | Some ns => if String.eqb ns "" then "default" else ns
  | None => "default"
  end.

(** [createImage]: the image of the first container, if there is one. *)
Definition createImage (cs : option (list V1Container)) : option Image :=
  match cs with
  | Some (c :: _) =>
      let url := container_image c in
      let imageAndUrl := split isAtOrColon url in
      let imageParts := split isSlash (first imageAndUrl) in
      let name := lastOf imageParts in
      Some {| image_url := url; image_name := name; image_tag := None |}
  | _ => None
  end.

(** [minifyDeployment]: name, namespace and annotations of the metadata,
    and the spec; nothing else. *)
Definition minifyDeployment (d : V1beta2Deployment) : V1beta2Deployment :=
  {| apiVersion := None;
     kind := None;
     metadata :=
       {| meta_name := meta_name (metadata d);
          meta_namespace := meta_namespace (metadata d);
          meta_annotations := meta_annotations (metadata d);
          meta_other := None |};
     spec := spec d;
     status := None |}.

(** [isReady] *)
Definition isReady (st : V1PodStatus) : bool :=
  match conditions st with
  | None => false
  | Some cs =>
      match List.find (fun c => String.eqb (condition_type c) "Ready") cs with
      | None => false
      | Some readyCondition => String.eqb (condition_status readyCondition)
          "True"
      end
  end.

End KubernetesObjects.

Arguments mkSnapshotDeployment {Json} _ _.
Arguments mkSnapshot {Json} _.
Arguments mkNamespace {Json} _.
Arguments mkHpa {Json} _ _ _ _.

(** ** The name of an image, in the spec's words

    The name is the url with its registry and path prefix and its digest
    or tag suffix stripped: of [host:port/path/name:tag@digest], the part
    [name]. *)

(** The text before the first character [p] holds of. *)
Fixpoint before (p : ascii -> bool) (s : string) : string :=
  match s with
  | EmptyString => EmptyString
  | String c rest => if p c then EmptyString else String c (before p rest)
  end.

Fixpoint contains (p : ascii -> bool) (s : string) : bool :=
  match s with
  | EmptyString => false
  | String c rest => (p c || contains p rest)%bool
  end.

(** The text after the last character [p] holds of. *)
Fixpoint afterLast (p : ascii -> bool) (s : string) : string :=
  match s with
  | EmptyString => EmptyString
  | String c rest =>
      if contains p rest then afterLast p rest
      else if p c then rest
      else String c rest
  end.

(** The text from the first character [p] holds of. *)
Fixpoint fromFirst (p : ascii -> bool) (s : string) : string :=
  match s with
  | EmptyString => EmptyString
  | String c rest => if p c then s else fromFirst p rest
  end.

Definition stripDigest (url : string) : string :=
  before (fun c => Ascii.eqb c "@") url.

Definition stripPrefix (reference : string) : string :=
  afterLast isSlash reference.

Definition stripTag (reference : string) : string :=
  before (fun c => Ascii.eqb c ":") reference.

Definition strippedName (url : string) : string :=
  stripTag (stripPrefix (stripDigest url)).

(** ** Asynchronous computations

    An [async] function run against a state of type [S]: it ends with a
    value or with a thrown exception, and leaves a new state. *)
Section AsyncMonad.

Variable S : Type.

Definition Async (A : Type) : Type := S -> Result A * S.

Definition ret {A} (a : A) : Async A := fun st => (Ok a, st).

Definition throw {A} (e : Exn) : Async A := fun st => (Throw e, st).

Definition bind {A B} (m : Async A) (k : A -> Async B) : Async B :=
  fun st =>
    match m st with
    | (Ok a, st') => k a st'
    | (Throw e, st') => (Throw e, st')
    end.

(** [try { m } catch (e) { ... }]: the outcome of [m] as a value. *)
Definition tryCatch {A} (m : Async A) : Async (Result A) :=
  fun st => let (r, st') := m st in (Ok r, st').

(** A synchronous computation that may throw. *)
Definition lift {A} (r : Result A) : Async A := fun st => (r, st).

End AsyncMonad.

Arguments ret {S A} a.
Arguments throw {S A} e.
Arguments lift {S A} r.

Declare Scope async_scope.
Delimit Scope async_scope with async.
Notation "x <- m ;; k" := (bind m (fun x => k))
  (at level 100, m at next level, right associativity) : async_scope.

(** ** The outside world and the monad of asynchronous methods *)

(** [KubeConfig], as far as the gateway uses it: the context it was
    switched to and the server of that context's cluster, when the context
    names a known cluster. *)
Record KubeConfig := mkKubeConfig {
  kube_context : string;
  kube_server : option string
}.

(** An API object made by [build]: the server it talks to and the
    configuration it authenticates with. *)
Record Api := mkApi {
  api_server : string;
  api_authentication : KubeConfig
}.

(** The gateway itself: its constructor arguments. *)
Record KubernetesClusterRepository := mkRepository {
  configs : gmap string KubeConfig;
  allowedNamespaces : option (list string)
}.

(** A cache entry: the value and the time it was stored at. *)
Record CacheEntry (V : Type) := mkEntry {
  entry_value : V;
  entry_time : Z
}.

Section World.

Variables Json W : Type.

(** The requests the gateway sends to a cluster. *)
Inductive ApiCall :=
| ListNamespace (api : Api)
| ListNamespacedPod (api : Api) (namespace : string)
| ListNamespacedDeployment (api : Api) (namespace : string)
| ListNamespacedHorizontalPodAutoscaler (api : Api) (namespace : string)
| ReadNamespacedDeployment (api : Api) (name namespace : string)
| ReplaceNamespacedDeployment (api : Api) (name namespace : string)
    (body : V1beta2Deployment Json).

(** The Kubernetes client and the servers behind it: each request changes
    the world and either answers with a body or fails. [Date_now] reads
    the clock, in milliseconds. *)
Record Kubernetes := mkKubernetes {
  listNamespace : Api -> W -> Result (list (V1Namespace Json)) * W;
  listNamespacedPod : Api -> string -> W -> Result (list (V1Pod Json)) * W;
  listNamespacedDeployment :
    Api -> string -> W -> Result (list (V1beta2Deployment Json)) * W;
  listNamespacedHorizontalPodAutoscaler :
    Api -> string -> W -> Result (list (V1HorizontalPodAutoscaler Json)) * W;
  readNamespacedDeployment :
    Api -> string -> string -> W -> Result (V1beta2Deployment Json) * W;
  replaceNamespacedDeployment :
    Api -> string -> string -> V1beta2Deployment Json -> W ->
    Result (V1beta2Deployment Json) * W;
  Date_now : W -> Z
}.

(** The state an asynchronous method runs in: the world, the log of the
    requests sent so far, the events handed to the event sink so far, and
    the gateway's private namespace cache. *)
Record St := mkSt {
  world : W;
  calls : list ApiCall;
  events : list Event;
  namespacesCache : gmap string (CacheEntry (list string))
}.

Definition M (A : Type) : Type := Async St A.

(** Send a request: log it, let the world answer. *)
Definition request {A} (c : ApiCall) (answer : W -> Result A * W) : M A :=
  fun st =>
    let (r, w) := answer (world st) in
    (r, {| world := w;
           calls := calls st ++ [c];
           events := events st;
           namespacesCache := namespacesCache st |}).

(** [call(eventModule.log)(event)]; the promise it returns is dropped. *)
Definition logEvent (e : Event) : M unit :=
  fun st =>
    (Ok tt, {| world := world st;
               calls := calls st;
               events := events st ++ [e];
               namespacesCache := namespacesCache st |}).

Definition now (k8s : Kubernetes) : M Z :=
  fun st => (Ok (Date_now k8s (world st)), st).

(** What a method adds to the logs when it is started in [st]: the
    requests it sends and the events it emits. *)
Definition sent {A} (m : M A) (st : St) : list ApiCall :=
  skipn (length (calls st)) (calls (snd (m st))).

Definition emitted {A} (m : M A) (st : St) : list Event :=
  skipn (length (events st)) (events (snd (m st))).

(** The namespace a request is addressed to. *)
Definition callNamespace (c : ApiCall) : option string :=
  match c with
  | ListNamespace _ => None
  | ListNamespacedPod _ namespace
  | ListNamespacedDeployment _ namespace
  | ListNamespacedHorizontalPodAutoscaler _ namespace
  | ReadNamespacedDeployment _ _ namespace
  | ReplaceNamespacedDeployment _ _ namespace _ => Some namespace
  end.

Definition isReplace (c : ApiCall) : bool :=
  match c with
  | ReplaceNamespacedDeployment _ _ _ _ => true
  | _ => false
  end.

End World.

Arguments logEvent {Json W} e.

(** ** The TTL cache *)

(** Modelled from the spec: the class [Cache] (module [Cache], imported by
    the gateway) is not among the sources. Per the spec,
    [calculate(key, supplier)] returns the cached value for [key] if it
    was computed less than [ttl] seconds ago; otherwise it invokes
    [supplier], stores the result with the current timestamp and returns
    it. A failure of the supplier is not cached. Timestamps are in
    milliseconds. *)
Section CacheStore.

Context {K : Type} `{Countable K} {V : Type}.

Definition isFresh (ttl time : Z) (e : CacheEntry V) : bool :=
  (time - entry_time e <? ttl * 1000)%Z.

Definition cached (ttl time : Z) (key : K) (c : gmap K (CacheEntry V))
  : option V :=
  match c !! key with
  | Some e => if isFresh ttl time e then Some (entry_value e) else None
  | None => None
  end.

Definition store (time : Z) (key : K) (v : V) (c : gmap K (CacheEntry V))
  : gmap K (CacheEntry V) :=
  <[key := {| entry_value := v; entry_time := time |}]> c.

End CacheStore.

(** ** The gateway *)
Section Gateway.

Variables Json W : Type.
Variable k8s : Kubernetes Json W.
(** [JSON.stringify] on deployments: the text of an object, which depends
    on its fields and on the order of its keys. *)
Variable JSON_stringify : V1beta2Deployment Json -> string.
Variable this : KubernetesClusterRepository.

Local Open Scope async_scope.

Definition getConfig (cluster : string) : Result KubeConfig :=
  match configs this !! cluster with
  | Some config => Ok config
  | None =>
      Throw (Error ("Config for cluster " +:+ cluster +:+
          " could not be found"))
  end.

(** [config.getCurrentCluster()!.server] *)
Definition getServer (config : KubeConfig) : Result string :=
  match kube_server config with
  | Some server => Ok server
  | None => Throw (TypeError "Cannot read property 'server' of undefined")
  end.

Definition build (cluster : string) : Result Api :=
  match getConfig cluster with
  | Throw e => Throw e
  | Ok config =>
      match getServer config with
      | Throw e => Throw e
      | Ok server =>
          Ok {| api_server := server; api_authentication := config |}
      end
  end.

Definition isNamespaceAllowed (namespace : string) : bool :=
  match allowedNamespaces this with
  | None => true
  | Some allowed =>
      match List.find (fun n => String.eqb n namespace) allowed with
      | Some _ => true
      | None => false
      end
  end.

(** [target.spec.template.spec.containers[0].image = url]: assigning to
    a property of [containers[0]] throws when there is no first
    container. Assigning to [image], a key the container has, leaves the
    order of the keys as it is. *)
Definition setImage (target : V1beta2Deployment Json) (url : string)
  : Result (V1beta2Deployment Json) :=
  let s := spec target in
  let t := spec_template s in
  let p := template_spec t in
  match containers p with
  | [] => Throw (TypeError "Cannot set property 'image' of undefined")
  | c :: cs =>
      Ok {| apiVersion := apiVersion target;
            kind := kind target;
            metadata := metadata target;
            spec :=
              {| spec_template :=
                   {| template_metadata := template_metadata t;
                      template_spec :=
                        {| containers :=
                             {| container_image := url;
                                container_other := container_other c |} :: cs;
                           podSpec_other := podSpec_other p |} |};
                 spec_other := spec_other s;
                 spec_keys := spec_keys s |};
            status := status target |}
  end.

(** The containers of a deployment: [d.spec.template.spec.containers]. *)
Definition containersOf (d : V1beta2Deployment Json) : list (V1Container Json)
    :=
  containers (template_spec (spec_template (spec d))).

(** [needsUpdate]: a deployment the cluster does not have, or one whose
    minified form prints differently from the minified target. The texts
    are compared, not the objects: the same fields under keys in another
    order are an update, too. *)
Definition needsUpdate (current : option (V1beta2Deployment Json))
  (target : V1beta2Deployment Json) : bool :=
  match current with
  | None => true
  | Some current =>
      negb (String.eqb (JSON_stringify (minifyDeployment target))
                       (JSON_stringify (minifyDeployment current)))
  end.

(** The cache wrapped around [namespaces]: [new Cache(60)]. *)
Definition namespacesTtl : Z := 60.

Definition calculate (key : string) (supplier : M Json W (list string))
  : M Json W (list string) :=
  time <- now k8s;;
  fun st =>
    match cached namespacesTtl time key (namespacesCache st) with
    | Some v => ret v st
    | None =>
        (v <- supplier;;
         stored <- now k8s;;
         fun st' =>
           (Ok v, {| world := world st';
                     calls := calls st';
                     events := events st';
                     namespacesCache :=
                       store stored key v (namespacesCache st') |})) st
    end.

Definition namespaces (context : string) : M Json W (list string) :=
  calculate context
    (api <- lift (build context);;
     items <- request (ListNamespace Json api) (listNamespace k8s api);;
     ret (List.filter isNamespaceAllowed
            (List.map (fun namespace => meta_name (namespace_metadata
                namespace))
               items))).

Definition pods (group : ServerGroup) : M Json W (list Pod) :=
  api <- lift (build (group_cluster group));;
  let namespace := getNamespace group in
  items <- request (ListNamespacedPod Json api namespace)
             (listNamespacedPod k8s api namespace);;
  ret (List.map
         (fun item =>
            let image := createImage (Some (containers (v1pod_spec item))) in
            let restarts :=
              match containerStatuses (v1pod_status item) with
              | Some (s :: _) => Some (restartCount s)
              | _ => None
              end in
            let ready := isReady (v1pod_status item) in
            {| pod_name := meta_name (v1pod_metadata item);
               pod_image := image;
               pod_restarts := restarts;
               pod_ready := ready |})
         items).

Definition deployments (cluster : ServerGroup) : M Json W (list Deployment) :=
  api <- lift (build (group_cluster cluster));;
  let namespace := getNamespace cluster in
  items <- request (ListNamespacedDeployment Json api namespace)
             (listNamespacedDeployment k8s api namespace);;
  ret (List.map
         (fun item =>
            let image := createImage (Some (containersOf item)) in
            {| deployment_name := meta_name (metadata item);
               deployment_image := image |})
         items).

Definition scalers (group : ServerGroup) : M Json W (list Scaler) :=
  api <- lift (build (group_cluster group));;
  let namespace := getNamespace group in
  items <- request (ListNamespacedHorizontalPodAutoscaler Json api namespace)
             (listNamespacedHorizontalPodAutoscaler k8s api namespace);;
  ret (List.map
         (fun item =>
            {| scaler_name := meta_name (hpa_metadata item);
               scaler_replicas :=
                 {| replicas_current := hpa_currentReplicas item;
                    replicas_minimum := hpa_minReplicas item;
                    replicas_maximum := hpa_maxReplicas item |} |})
         items).

Definition updateDeployment (group : ServerGroup) (deployment : Deployment)
  (targetImage : Image) : M Json W Deployment :=
  api <- lift (build (group_cluster group));;
  let namespace := getNamespace group in
  response <- request
                (ReadNamespacedDeployment Json api (deployment_name deployment)
                   namespace)
                (readNamespacedDeployment k8s api (deployment_name deployment)
                   namespace);;
  target <- lift (setImage (minifyDeployment response) (image_url
      targetImage));;
  result <- request
              (ReplaceNamespacedDeployment api (deployment_name deployment)
                 namespace target)
              (replaceNamespacedDeployment k8s api (deployment_name deployment)
                 namespace target);;
  ret {| deployment_name := meta_name (metadata result);
         deployment_image := createImage (Some (containersOf result)) |}.

Definition takeSnapshot (group : ServerGroup) : M Json W (ClusterSnapshot Json)
    :=
  api <- lift (build (group_cluster group));;
  let namespace := getNamespace group in
  result <- request (ListNamespacedDeployment Json api namespace)
              (listNamespacedDeployment k8s api namespace);;
  ret (mkSnapshot
         (List.map
            (fun d => mkSnapshotDeployment (meta_name (metadata d))
                        (minifyDeployment d))
            result)).

(** What the start of an iteration of [applySnapshot]'s loop leaves in
    [target]: with [ignoreImage], and a current deployment that has an
    image, the snapshot's data with that image assigned to its first
    container; the snapshot's data otherwise. (The assignment is made in
    place, on the object of the snapshot the caller passed in.) *)
Definition substituteImage (ignoreImage : bool)
  (current : option (V1beta2Deployment Json))
  (target : V1beta2Deployment Json) : Result (V1beta2Deployment Json) :=
  if ignoreImage then
    match current with
    | Some current =>
        match createImage (Some (containersOf current)) with
        | Some image => setImage target (image_url image)
        | None => Ok target
        end
    | None => Ok target
    end
  else Ok target.

(** [result.body.items.find(d => d.metadata.name === name)] *)
Definition findCurrent (items : list (V1beta2Deployment Json)) (name : string)
  : option (V1beta2Deployment Json) :=
  List.find (fun d => String.eqb (meta_name (metadata d)) name) items.

(** The [for] loop of [applySnapshot], with its two local arrays. *)
Fixpoint applyDeployments (api : Api) (namespace : string)
  (items : list (V1beta2Deployment Json)) (ignoreImage : bool)
  (ds : list (SnapshotDeployment Json)) (applied errored : list string)
  : M Json W (list string * list string) :=
  match ds with
  | [] => ret (applied, errored)
  | deployment :: rest =>
      let name := snapshot_name deployment in
      let current := findCurrent items name in
      target <- lift (substituteImage ignoreImage current
                        (snapshot_data deployment));;
      if needsUpdate current target then
        outcome <- tryCatch (request
                          (ReplaceNamespacedDeployment api name namespace
                              target)
                          (replaceNamespacedDeployment k8s api name namespace
                             target));;
        match outcome with
        | Ok _ =>
            applyDeployments api namespace items ignoreImage rest
              (applied ++ ["Deployment " +:+ name]) errored
        | Throw _ =>
            applyDeployments api namespace items ignoreImage rest
              applied (errored ++ ["Deployment " +:+ name])
        end
      else
        applyDeployments api namespace items ignoreImage rest applied errored
  end.

(** The event [applySnapshot] reports a batch with. *)
Definition snapshotEvent (group : ServerGroup) (timestamp : Z)
  (applied errored : list string) : Event :=
  {| event_message := "Applied Snapshots";
     event_timestamp := timestamp;
     event_topics := ["slack"];
     event_description :=
       "Applied Snapshots in " +:+ group_cluster group +:+ " ∞ "
         +:+ interpolate (group_namespace group);
     event_fields :=
       List.map (fun value => {| field_value := value; field_title := "Failure"
           |})
         errored
       ++ List.map (fun value => {| field_value := value; field_title :=
           "Success" |})
            applied |}.

Definition applySnapshot (group : ServerGroup) (snapshot : ClusterSnapshot Json)
  (ignoreImage : bool) : M Json W unit :=
  api <- lift (build (group_cluster group));;
  let namespace := getNamespace group in
  result <- request (ListNamespacedDeployment Json api namespace)
              (listNamespacedDeployment k8s api namespace);;
  lists <- applyDeployments api namespace result ignoreImage
             (deployments_of snapshot) [] [];;
  let (applied, errored) := lists in
  if (0 <? length applied + length errored)%nat then
    timestamp <- now k8s;;
    logEvent (snapshotEvent group timestamp applied errored)
  else ret tt.


(** *** The batch of a snapshot, taken apart

    What the loop of [applySnapshot] amounts to: the updates it decides
    on, from the snapshot and the listing alone, and the answers of the
    cluster to the requests for them. *)

(** The updates the loop decides on, in order, up to the first entry at
    which the substitution of the image throws. *)
Fixpoint plannedUpdates (items : list (V1beta2Deployment Json))
  (ignoreImage : bool) (ds : list (SnapshotDeployment Json))
  : list (string * V1beta2Deployment Json) * option Exn :=
  match ds with
  | [] => ([], None)
  | deployment :: rest =>
      let name := snapshot_name deployment in
      let current := findCurrent items name in
      match substituteImage ignoreImage current (snapshot_data deployment) with
      | Throw e => ([], Some e)
      | Ok target =>
          let (more, thrown) := plannedUpdates items ignoreImage rest in
          (if needsUpdate current target then (name, target) :: more else more,
           thrown)
      end
  end.

(** The cluster's answers to the replace requests for a list of updates,
    sent one after the other: for each, whether it succeeded. *)
Fixpoint replaceAll (api : Api) (namespace : string)
  (updates : list (string * V1beta2Deployment Json)) (w : W)
  : list (string * bool) * W :=
  match updates with
  | [] => ([], w)
  | (name, target) :: rest =>
      let (r, w') := replaceNamespacedDeployment k8s api name namespace target w
          in
      let (outcomes, w'') := replaceAll api namespace rest w' in
      ((name, match r with Ok _ => true | Throw _ => false end) :: outcomes,
          w'')
  end.

Definition replaceRequests (api : Api) (namespace : string)
  (updates : list (string * V1beta2Deployment Json)) : list (ApiCall Json) :=
  List.map (fun u => ReplaceNamespacedDeployment api (fst u) namespace (snd u))
    updates.

(** The labels of the updates that succeeded, and of those that failed. *)
Definition successes (outcomes : list (string * bool)) : list string :=
  List.map (fun o => "Deployment " +:+ fst o)
    (List.filter (fun o => snd o) outcomes).

Definition failures (outcomes : list (string * bool)) : list string :=
  List.map (fun o => "Deployment " +:+ fst o)
    (List.filter (fun o => negb (snd o)) outcomes).

End Gateway.

(** ** Structural equality

    The spec's word for what [needsUpdate] compares: two deployments are
    structurally equal when they have the same fields with the same
    values, in whatever order their keys are. The annotations are the
    same entries in any order, the keys of the spec the same keys in any
    order; everything else is equal. ([needsUpdate] itself, above, is the
    code's: it compares texts.) *)
Section StructuralEquality.

Variable Json : Type.

Definition sameEntries (a b : option (list (string * string))) : Prop :=
  match a, b with
  | Some x, Some y => Permutation x y
  | None, None => True
  | _, _ => False
  end.

Definition structurallyEqual (a b : V1beta2Deployment Json) : Prop :=
  apiVersion a = apiVersion b
  /\ kind a = kind b
  /\ meta_name (metadata a) = meta_name (metadata b)
  /\ meta_namespace (metadata a) = meta_namespace (metadata b)
  /\ sameEntries (meta_annotations (metadata a))
       (meta_annotations (metadata b))
  /\ meta_other (metadata a) = meta_other (metadata b)
  /\ spec_template (spec a) = spec_template (spec b)
  /\ spec_other (spec a) = spec_other (spec b)
  /\ Permutation (spec_keys (spec a)) (spec_keys (spec b))
  /\ status a = status b.

End StructuralEquality.

(** ** Single-flight recomputation in the cache *)

(** Modelled from the spec: the class [Cache] is not among the sources.
    Per the spec, concurrent [calculate] calls for the same key during an
    in-flight computation must not invoke the supplier more than once:
    late arrivals await the in-flight computation, and all of them
    observe its result or its failure; a failure is not cached.

    JavaScript runs one callback at a time, so a run of the cache is a
    sequence of events: a caller entering [calculate], or the promise of
    an invoked supplier settling. *)
Section SingleFlight.

Context {K : Type} `{Countable K} {V : Type}.
Variable Caller : Type.
Variable ttl : Z.

Record CacheState := mkCacheState {
  (* the stored values *)
  settled : gmap K (CacheEntry V);
  (* the callers awaiting the computation in flight for a key *)
  inFlight : gmap K (list Caller);
  (* the keys the supplier was invoked for, in order *)
  invocations : list K;
  (* what each caller's promise settled with, in order *)
  observed : list (Caller * K * Result V)
}.

Inductive CacheEvent :=
| Calculate (caller : Caller) (key : K) (time : Z)
| Settle (key : K) (outcome : Result V) (time : Z).

Definition cacheStep (st : CacheState) (ev : CacheEvent) : CacheState :=
  match ev with
  | Calculate caller key time =>
      match cached ttl time key (settled st) with
      | Some v =>
          {| settled := settled st;
             inFlight := inFlight st;
             invocations := invocations st;
             observed := observed st ++ [(caller, key, Ok v)] |}
      | None =>
          match inFlight st !! key with
          | Some waiting =>
              {| settled := settled st;
                 inFlight := <[key := waiting ++ [caller]]> (inFlight st);
                 invocations := invocations st;
                 observed := observed st |}
          | None =>
              {| settled := settled st;
                 inFlight := <[key := [caller]]> (inFlight st);
                 invocations := invocations st ++ [key];
                 observed := observed st |}
          end
      end
  | Settle key outcome time =>
      match inFlight st !! key with
      | None => st
      | Some waiting =>
          {| settled :=
               match outcome with
               | Ok v => store time key v (settled st)
               | Throw _ => settled st
               end;
             inFlight := delete key (inFlight st);
             invocations := invocations st;
             observed :=
               observed st ++ List.map (fun c => (c, key, outcome)) waiting |}
      end
  end.

Definition cacheRun (st : CacheState) (evs : list CacheEvent) : CacheState :=
  List.fold_left cacheStep evs st.

(** The callers that enter [calculate] for [key] during a run. *)
Fixpoint callersOf (key : K) (evs : list CacheEvent) : list Caller :=
  match evs with
  | [] => []
  | Calculate caller key' _ :: rest =>
      if decide (key' = key) then caller :: callersOf key rest
      else callersOf key rest
  | Settle _ _ _ :: rest => callersOf key rest
  end.

(** No computation for [key] settles during the run. *)
Fixpoint unsettled (key : K) (evs : list CacheEvent) : bool :=
  match evs with
  | [] => true
  | Calculate _ _ _ :: rest => unsettled key rest
  | Settle key' _ _ :: rest =>
      if decide (key' = key) then false else unsettled key rest
  end.

(** Every call for [key] in the run comes at [time] or later. *)
Fixpoint notBefore (time : Z) (key : K) (evs : list CacheEvent) : bool :=
  match evs with
  | [] => true
  | Calculate _ key' t :: rest =>
      (if decide (key' = key) then (time <=? t)%Z else true)
      && notBefore time key rest
  | Settle _ _ _ :: rest => notBefore time key rest
  end.

(** How often the supplier was invoked for [key]. *)
Definition invocationsFor (key : K) (st : CacheState) : nat :=
  length (List.filter (fun k => bool_decide (k = key)) (invocations st)).

(** What the callers of [key] observed. *)
Definition observedFor (key : K) (st : CacheState)
  : list (Caller * K * Result V) :=
  List.filter (fun o => bool_decide (snd (fst o) = key)) (observed st).

End SingleFlight.

Arguments Settle {K V Caller} key outcome time.

(** ** The dashboard *)

(** [jobs/model/Cron] *)
Record Cron := mkCron {
  cron_lastRun : option Z;
  cron_nextRuns : list Z
}.

(** Modelled from the spec: [jobs/model/PipelineDescription] is not among
    the sources. Per the spec a pipeline description has a name, a target
    cluster, an optional cron expression and a source with a type and an
    expression. *)
Record PipelineDescription := mkPipeline {
  pipeline_name : string;
  pipeline_cluster : string;
  pipeline_cron : option string;
  pipeline_sourceType : string;
  pipeline_sourceExpression : string
}.

Record ClusterView := mkClusterView {
  clusterView_name : string;
  clusterView_namespaces : list string
}.

Record JobView := mkJobView {
  job_pipeline : PipelineDescription;
  job_lastRun : option string;
  job_nextRun : option string
}.

Section Dashboard.

Variables S Config : Type.

(** The operations the handler reaches through [call(...)]. *)
Record Dispatcher := mkDispatcher {
  call_clusters : Async S (list string);
  call_namespaces : string -> Async S (list string);
  call_pipelines : Async S (list PipelineDescription);
  call_schedules : PipelineDescription -> Async S (option Cron);
  call_list : Async S (list string)
}.

Record IndexView := mkIndexView {
  index_title : string;
  index_clusters : option (list ClusterView);
  index_jobs : option (list JobView);
  index_images : option (list string);
  index_config : option Config;
  index_version : option string;
  index_errors : list string
}.

Variable d : Dispatcher.
(** [moment(t).toISOString()] *)
Variable toISOString : Z -> string.
(** The module's [config] variable and [process.env.VERSION]. *)
Variable config : option Config.
Variable VERSION : option string.

Local Open Scope async_scope.

(** The loop over the known clusters, inside the first [try]: it stops at
    the first exception and leaves what it had pushed. *)
Fixpoint loadNamespaces (knownClusters : list string)
  (clustersWithNamespaces : list ClusterView)
  : Async S (list ClusterView * option Exn) :=
  match knownClusters with
  | [] => ret (clustersWithNamespaces, None)
  | cluster :: rest =>
      r <- tryCatch (call_namespaces d cluster);;
      match r with
      | Ok knownNamespaces =>
          loadNamespaces rest
            (clustersWithNamespaces
               ++ [{| clusterView_name := cluster;
                      clusterView_namespaces := knownNamespaces |}])
      | Throw e => ret (clustersWithNamespaces, Some e)
      end
  end.

Definition jobView (pipeline : PipelineDescription)
  (knownSchedules : option Cron) : JobView :=
  let lastRun :=
    match knownSchedules with
    | Some c =>
        match cron_lastRun c with
        | Some t => Some (toISOString t)
        | None => None
        end
    | None => None
    end in
  let nextRun :=
    match knownSchedules with
    | Some c =>
        match cron_nextRuns c with
        | t :: _ => Some (toISOString t)
        | [] => None
        end
    | None => None
    end in
  {| job_pipeline := pipeline; job_lastRun := lastRun; job_nextRun := nextRun
      |}.

(** The loop over the known pipelines, inside the second [try]. *)
Fixpoint loadSchedules (knownPipelines : list PipelineDescription)
  (jobsWithSchedules : list JobView)
  : Async S (list JobView * option Exn) :=
  match knownPipelines with
  | [] => ret (jobsWithSchedules, None)
  | pipeline :: rest =>
      r <- tryCatch (call_schedules d pipeline);;
      match r with
      | Ok knownSchedules =>
          loadSchedules rest
            (jobsWithSchedules ++ [jobView pipeline knownSchedules])
      | Throw e => ret (jobsWithSchedules, Some e)
      end
  end.

(** [errors.push(prefix + e.message)] when the block threw. *)
Definition pushError (errors : list string) (prefix : string)
  (thrown : option Exn) : list string :=
  match thrown with
  | Some e => errors ++ [prefix +:+ exn_message e]
  | None => errors
  end.

(** The first [try] with its [catch]: what it leaves in
    [clustersWithNamespaces], and the exception it caught, if any. *)
Definition clustersBlock
  : Async S (option (list ClusterView) * option Exn) :=
  r <- tryCatch (call_clusters d);;
  match r with
  | Throw e => ret (None, Some e)
  | Ok knownClusters =>
      p <- loadNamespaces knownClusters [];;
      ret (Some (fst p), snd p)
  end.

(** The second [try] with its [catch]. *)
Definition jobsBlock : Async S (option (list JobView) * option Exn) :=
  r <- tryCatch (call_pipelines d);;
  match r with
  | Throw e => ret (None, Some e)
  | Ok knownPipelines =>
      p <- loadSchedules knownPipelines [];;
      ret (Some (fst p), snd p)
  end.

Definition index : Async S IndexView :=
  let errors := [] in
  b <- clustersBlock;;
  let clustersWithNamespaces := fst b in
  let errors := pushError errors "Clusters could not be loaded: " (snd b) in
  b <- jobsBlock;;
  let jobsWithSchedules := fst b in
  let errors := pushError errors "Jobs could not be loaded: " (snd b) in
  r <- tryCatch (call_list d);;
  let knownImages := match r with Ok l => Some l | Throw _ => None end in
  let errors :=
    pushError errors "Images could not be loaded: "
      (match r with Ok _ => None | Throw e => Some e end) in
  ret {| index_title := "Spacegun ∞ Dashboard";
         index_clusters := clustersWithNamespaces;
         index_jobs := jobsWithSchedules;
         index_images := knownImages;
         index_config := config;
         index_version := VERSION;
         index_errors := errors |}.

(** The three independent sub-queries of the handler, each as the
    computation its [try] block runs: it throws where the block throws. *)
Fixpoint namespacesOfAll (knownClusters : list string)
  : Async S (list ClusterView) :=
  match knownClusters with
  | [] => ret []
  | cluster :: rest =>
      knownNamespaces <- call_namespaces d cluster;;
      views <- namespacesOfAll rest;;
      ret ({| clusterView_name := cluster;
              clusterView_namespaces := knownNamespaces |} :: views)
  end.

Definition clustersQuery : Async S (list ClusterView) :=
  knownClusters <- call_clusters d;;
  namespacesOfAll knownClusters.

Fixpoint schedulesOfAll (knownPipelines : list PipelineDescription)
  : Async S (list JobView) :=
  match knownPipelines with
  | [] => ret []
  | pipeline :: rest =>
      knownSchedules <- call_schedules d pipeline;;
      views <- schedulesOfAll rest;;
      ret (jobView pipeline knownSchedules :: views)
  end.

Definition jobsQuery : Async S (list JobView) :=
  knownPipelines <- call_pipelines d;;
  schedulesOfAll knownPipelines.

Definition imagesQuery : Async S (list string) := call_list d.

(** The message the handler reports a failed sub-query with. *)
Definition failureMessage {A} (prefix : string) (r : Result A) : list string :=
  match r with
  | Ok _ => []
  | Throw e => [prefix +:+ exn_message e]
  end.

End Dashboard.

(** ** The other pages of the dashboard *)

Record NamespaceView := mkNamespaceView {
  namespaceView_name : string;
  namespaceView_pods : list Pod
}.

Record PodsView := mkPodsView {
  podsView_title : string;
  podsView_name : string;
  podsView_namespaces : list NamespaceView
}.

Record TaggedImage := mkTaggedImage {
  tagged_name : string;
  tagged_tag : string
}.

Record ImagesView := mkImagesView {
  imagesView_title : string;
  imagesView_name : string;
  imagesView_images : list TaggedImage;
  imagesView_focusedImage : option Image
}.

(** The handlers [Module.pods] and [Module.images]. *)
Module Views.
Section Pages.

Variable S : Type.
Variable d : Dispatcher S.
(** [call(pods)], [call(tags)] and [call(image)]. *)
Variable call_pods : ServerGroup -> Async S (list Pod).
Variable call_tags : string -> Async S (list string).
Variable call_image : string -> string -> Async S Image.
(** What [+ image] appends to the title of the images page: [image] is
    the operation imported from the image module, not the parameter. *)
Variable imageText : string.

Local Open Scope async_scope.

(** The loop of [pods] over the known namespaces, with its array. *)
Fixpoint loadPods (cluster : string) (knownNamespaces : list string)
  (namespacesWithPods : list NamespaceView) : Async S (list NamespaceView) :=
  match knownNamespaces with
  | [] => ret namespacesWithPods
  | namespace :: rest =>
      knownPods <- call_pods {| group_cluster := cluster;
                                group_namespace := Some namespace |};;
      loadPods cluster rest
        (namespacesWithPods
           ++ [{| namespaceView_name := namespace;
                  namespaceView_pods := knownPods |}])
  end.

(** The queries of the loop, one after the other, as a computation that
    throws where one of them throws. *)
Fixpoint podsOfAll (cluster : string) (knownNamespaces : list string)
  : Async S (list NamespaceView) :=
  match knownNamespaces with
  | [] => ret []
  | namespace :: rest =>
      knownPods <- call_pods {| group_cluster := cluster;
                                group_namespace := Some namespace |};;
      views <- podsOfAll cluster rest;;
      ret ({| namespaceView_name := namespace;
              namespaceView_pods := knownPods |} :: views)
  end.

Definition pods (cluster : string) : Async S PodsView :=
  knownNamespaces <- call_namespaces d cluster;;
  namespacesWithPods <- loadPods cluster knownNamespaces [];;
  ret {| podsView_title := "Spacegun ∞ Pods ∞ " +:+ cluster;
         podsView_name := cluster;
         podsView_namespaces := namespacesWithPods |}.

(** [params.tag || 'latest'] *)
Definition tagOrLatest (tag : option string) : string :=
  match tag with
  | Some t => if String.eqb t "" then "latest" else t
  | None => "latest"
  end.

Definition images (image : string) (tag : option string)
  : Async S ImagesView :=
  let name := image in
  let tag := tagOrLatest tag in
  knownTags <- call_tags name;;
  let knownImages :=
    List.map (fun t => {| tagged_name := name; tagged_tag := t |}) knownTags in
  focusedImage <-
    (if List.existsb (fun t => String.eqb tag t) knownTags
     then (i <- call_image name tag;; ret (Some i))
     else ret None);;
  ret {| imagesView_title := "Spacegun ∞ Images ∞ " +:+ imageText;
         imagesView_name := name;
         imagesView_images := knownImages;
         imagesView_focusedImage := focusedImage |}.

End Pages.
End Views.

(** ** Making the gateway from a configuration file

    [fromConfig] loads a [KubeConfig] from a file and keeps, for every
    context of the file, a copy of it switched to that context. The
    loaded configuration and what the library's [getCurrentCluster] finds
    in a copy switched to a context are parameters. *)
Section FromConfig.

Variable KubeConfigFile : Type.
(** The names of [config.getContexts()], in order. *)
Variable getContexts : KubeConfigFile -> list string.
(** The server of the current cluster of a copy switched to a context. *)
Variable currentServer : KubeConfigFile -> string -> option string.

(** [cloneDeep(config)] with [setCurrentContext(name)]. *)
Definition setCurrentContext (config : KubeConfigFile) (name : string)
  : KubeConfig :=
  {| kube_context := name; kube_server := currentServer config name |}.

Definition fromConfig (config : KubeConfigFile)
  (namespaces : option (list string)) : KubernetesClusterRepository :=
  {| configs :=
       List.fold_left
         (fun configs name => <[name := setCurrentContext config name]> configs)
         (getContexts config) ∅;
     allowedNamespaces := namespaces |}.

End FromConfig.

(** ** A test cluster

    A small world to run the gateway against: the cluster is the list of
    its deployments; replacing a deployment that is not there fails, as a
    PUT to a missing resource does. *)
Definition testDeployment (name image replicas : string)
  : V1beta2Deployment string :=
  {| apiVersion := Some "apps/v1beta2";
     kind := Some "Deployment";
     metadata :=
       {| meta_name := name;
          meta_namespace := Some "default";
          meta_annotations := None;
          meta_other := Some "uid, resourceVersion" |};
     spec :=
       {| spec_template :=
            {| template_metadata := None;
               template_spec :=
                 {| containers :=
                      [{| container_image := image; container_other := "" |}];
                    podSpec_other := "" |} |};
          spec_other := replicas;
          spec_keys := ["replicas"; "template"; "spec"; "containers"; "image"]
       |};
     status := Some "available" |}.

Definition testReplace (name : string) (body : V1beta2Deployment string)
  (w : list (V1beta2Deployment string)) : list (V1beta2Deployment string) :=
  List.map
    (fun d => if String.eqb (meta_name (metadata d)) name then body else d) w.

Definition testKubernetes
  : Kubernetes string (list (V1beta2Deployment string)) :=
  {| listNamespace := fun _ w =>
       (Ok [mkNamespace (mkMeta "default" None None (@None string));
            mkNamespace (mkMeta "kube-system" None None None)], w);
     listNamespacedPod := fun _ _ w => (Ok [], w);
     listNamespacedDeployment := fun _ _ w => (Ok w, w);
     listNamespacedHorizontalPodAutoscaler := fun _ _ w => (Ok [], w);
     readNamespacedDeployment := fun _ name _ w =>
       match findCurrent w name with
       | Some d => (Ok d, w)
       | None => (Throw (Rejected "404"), w)
       end;
     replaceNamespacedDeployment := fun _ name _ body w =>
       match findCurrent w name with
       | Some _ => (Ok body, testReplace name body w)
       | None => (Throw (Rejected "404"), w)
       end;
     Date_now := fun _ => 1541203200000%Z |}.

(** A serialisation that tells apart what the tests tell apart: the
    name, the images and the rest of the spec. *)
Definition testStringify (d : V1beta2Deployment string) : string :=
  meta_name (metadata d) +:+ " "
  +:+ String.concat "," (List.map (@container_image string) (containersOf d))
  +:+ " " +:+ spec_other (spec d).

Definition testRepository : KubernetesClusterRepository :=
  {| configs :=
       {[ "develop" := {| kube_context := "develop";
                          kube_server := Some "https://k8s.develop" |} ]};
     allowedNamespaces := Some ["default"; "apps"] |}.

Definition testState (w : list (V1beta2Deployment string))
  : St string (list (V1beta2Deployment string)) :=
  {| world := w; calls := []; events := []; namespacesCache := ∅ |}.

Definition testGroup : ServerGroup :=
  {| group_cluster := "develop"; group_namespace := None |}.

Definition testApi : Api :=
  {| api_server := "https://k8s.develop";
     api_authentication :=
       {| kube_context := "develop";
          kube_server := Some "https://k8s.develop" |} |}.

(** The cluster runs [api] and [web]; the snapshot records [api] with an
    older image and more replicas, [web] as it runs, and [worker], which
    the cluster does not have. *)
Definition testCluster : list (V1beta2Deployment string) :=
  [testDeployment "api" "registry/api:v2" "replicas: 1";
   testDeployment "web" "registry/web:v5" "replicas: 2"].

Definition testSnapshot : ClusterSnapshot string :=
  mkSnapshot
    [mkSnapshotDeployment "worker"
       (minifyDeployment (testDeployment "worker" "registry/worker:v1"
           "replicas: 1"));
     mkSnapshotDeployment "api"
       (minifyDeployment (testDeployment "api" "registry/api:v1"
           "replicas: 3"));
     mkSnapshotDeployment "web"
       (minifyDeployment (testDeployment "web" "registry/web:v5"
           "replicas: 2"))].

(** A test dispatcher: two clusters, the namespaces of the second cannot
    be listed; one pipeline with a schedule; the image registry is down. *)
Definition testDispatcher : Dispatcher unit :=
  {| call_clusters := ret ["develop"; "live"];
     call_namespaces := fun cluster =>
       if String.eqb cluster "develop" then ret ["default"]
       else throw (Rejected "connect ECONNREFUSED");
     call_pipelines :=
       ret [mkPipeline "develop-job" "develop" None "image" "^(?!.*latest).*$"];
     call_schedules := fun _ => ret (Some (mkCron None [1541203500000%Z]));
     call_list := throw (Rejected "503") |}.

(** The state the test snapshot, applied with [ignoreImage], leaves. *)
Definition testApplied : St string (list (V1beta2Deployment string)) :=
  snd (applySnapshot testKubernetes testStringify testRepository testGroup
         testSnapshot true (testState testCluster)).

(** A deployment without containers, and a cluster and a snapshot with
    one: the cluster's [job] runs an image, the snapshot records [job]
    without containers, between [api] and [web]. *)
Definition testBare (name : string) : V1beta2Deployment string :=
  {| apiVersion := None;
     kind := None;
     metadata :=
       {| meta_name := name;
          meta_namespace := Some "default";
          meta_annotations := None;
          meta_other := None |};
     spec :=
       {| spec_template :=
            {| template_metadata := None;
               template_spec := {| containers := []; podSpec_other := "" |} |};
          spec_other := "replicas: 1";
          spec_keys := ["replicas"; "template"; "spec"; "containers"] |};
     status := None |}.

Definition testClusterWithJob : list (V1beta2Deployment string) :=
  [testDeployment "api" "registry/api:v2" "replicas: 1";
   testDeployment "job" "registry/job:v7" "replicas: 1";
   testDeployment "web" "registry/web:v5" "replicas: 2"].

Definition testSnapshotWithBare : ClusterSnapshot string :=
  mkSnapshot
    [mkSnapshotDeployment "api"
       (minifyDeployment
          (testDeployment "api" "registry/api:v1" "replicas: 3"));
     mkSnapshotDeployment "job" (testBare "job");
     mkSnapshotDeployment "web"
       (minifyDeployment
          (testDeployment "web" "registry/web:v5" "replicas: 4"))].

(** A serialisation that, as [JSON.stringify] does, goes by the order of
    the keys: the name, the namespace, the annotations entry by entry,
    the keys of the spec, the images and the rest of the spec. *)
Definition orderedStringify (d : V1beta2Deployment string) : string :=
  meta_name (metadata d) +:+ " "
  +:+ interpolate (meta_namespace (metadata d)) +:+ " "
  +:+ match meta_annotations (metadata d) with
      | Some entries =>
          String.concat ","
            (List.map (fun entry => fst entry +:+ "=" +:+ snd entry) entries)
      | None => "undefined"
      end
  +:+ " " +:+ String.concat "," (spec_keys (spec d))
  +:+ " "
  +:+ String.concat "," (List.map (@container_image string) (containersOf d))
  +:+ " " +:+ spec_other (spec d).

(** The deployment [api] with two annotations, as a cluster runs it; and
    as two snapshots record it: with the same annotations, [tier] before
    [owner], and with the same spec, [template] before [replicas]. *)
Definition testAnnotated : V1beta2Deployment string :=
  {| apiVersion := Some "apps/v1beta2";
     kind := Some "Deployment";
     metadata :=
       {| meta_name := "api";
          meta_namespace := Some "default";
          meta_annotations := Some [("owner", "team-a"); ("tier", "backend")];
          meta_other := Some "uid, resourceVersion" |};
     spec := spec (testDeployment "api" "registry/api:v2" "replicas: 1");
     status := Some "available" |}.

Definition testAnnotationsSwapped : V1beta2Deployment string :=
  {| apiVersion := None;
     kind := None;
     metadata :=
       {| meta_name := "api";
          meta_namespace := Some "default";
          meta_annotations := Some [("tier", "backend"); ("owner", "team-a")];
          meta_other := None |};
     spec := spec testAnnotated;
     status := None |}.

Definition testKeysSwapped : V1beta2Deployment string :=
  {| apiVersion := None;
     kind := None;
     metadata :=
       {| meta_name := "api";
          meta_namespace := Some "default";
          meta_annotations := Some [("owner", "team-a"); ("tier", "backend")];
          meta_other := None |};
     spec :=
       {| spec_template := spec_template (spec testAnnotated);
          spec_other := "replicas: 1";
          spec_keys := ["template"; "spec"; "containers"; "image"; "replicas"]
       |};
     status := None |}.

(** A batch on the cluster with [job]: [worker], which the cluster does
    not have and refuses; [api], with more replicas; [job] without
    containers; [web], with more replicas. And the same batch without
    [job]. *)
Definition testSnapshotRefusedAndBare : ClusterSnapshot string :=
  mkSnapshot
    [mkSnapshotDeployment "worker"
       (minifyDeployment
          (testDeployment "worker" "registry/worker:v1" "replicas: 1"));
     mkSnapshotDeployment "api"
       (minifyDeployment
          (testDeployment "api" "registry/api:v1" "replicas: 3"));
     mkSnapshotDeployment "job" (testBare "job");
     mkSnapshotDeployment "web"
       (minifyDeployment
          (testDeployment "web" "registry/web:v5" "replicas: 4"))].

Definition testSnapshotRefused : ClusterSnapshot string :=
  mkSnapshot
    [mkSnapshotDeployment "worker"
       (minifyDeployment
          (testDeployment "worker" "registry/worker:v1" "replicas: 1"));
     mkSnapshotDeployment "api"
       (minifyDeployment
          (testDeployment "api" "registry/api:v1" "replicas: 3"));
     mkSnapshotDeployment "web"
       (minifyDeployment
          (testDeployment "web" "registry/web:v5" "replicas: 4"))].

(** A test registry for the images page: the tags of every image are
    [v1] and [latest]. *)
Definition testTags : string -> Async unit (list string) :=
  fun _ => ret ["v1"; "latest"].

Definition testImage : string -> string -> Async unit Image :=
  fun name tag =>
    ret (mkImage ("registry/" +:+ name +:+ ":" +:+ tag) name (Some tag)).

(** * Properties *)

Unset Implicit Arguments.

(** ** Strings and images *)

Lemma split_nonempty sep s : split sep s <> [].
Proof.
  destruct s as [|c rest]; simpl; [discriminate|].
  destruct (sep c); [discriminate|].
  destruct (split sep rest); discriminate.
Qed.

(** The image keeps the url of the first container as it is. *)
Lemma createImage_url {Json} (c : V1Container Json) cs :
  exists image,
    createImage (Some (c :: cs)) = Some image
    /\ image_url image = container_image c.
Proof. eexists; split; reflexivity. Qed.

(** *** Where the name is the stripped url *)

Lemma first_split p s : first (split p s) = before p s.
Proof.
  induction s as [|c rest IH]; [reflexivity|].
  cbn [split before]. destruct (p c); [reflexivity|].
  destruct (split p rest) as [|piece pieces] eqn:E.
  - destruct (split_nonempty p rest E).
  - cbn in *. rewrite IH. reflexivity.
Qed.

Lemma split_without p s : contains p s = false -> split p s = [s].
Proof.
  induction s as [|c rest IH]; [reflexivity|].
  cbn [contains split]. intros C. apply orb_false_iff in C.
  destruct C as [-> C]. rewrite (IH C). reflexivity.
Qed.

Lemma split_single p s x : split p s = [x] -> contains p s = false.
Proof.
  revert x. induction s as [|c rest IH]; intros x; [reflexivity|].
  cbn [split contains]. destruct (p c).
  - intros [= _ E]. destruct (split_nonempty p rest E).
  - destruct (split p rest) as [|piece pieces] eqn:E.
    + intros _. destruct (split_nonempty p rest E).
    + intros [= _ ->]. exact (IH piece eq_refl).
Qed.

Lemma afterLast_without p s : contains p s = false -> afterLast p s = s.
Proof.
  destruct s as [|c rest]; [reflexivity|].
  cbn [contains afterLast]. intros C. apply orb_false_iff in C.
  destruct C as [-> ->]. reflexivity.
Qed.

Lemma lastOf_split p s : lastOf (split p s) = afterLast p s.
Proof.
  induction s as [|c rest IH]; [reflexivity|].
  cbn [split afterLast]. unfold lastOf in *.
  destruct (split p rest) as [|piece pieces] eqn:E.
  { destruct (split_nonempty p rest E). }
  destruct (p c).
  - change (List.last (EmptyString :: piece :: pieces) EmptyString)
      with (List.last (piece :: pieces) EmptyString).
    rewrite IH.
    destruct (contains p rest) eqn:C; [reflexivity|].
    apply afterLast_without. exact C.
  - destruct (contains p rest) eqn:C.
    + destruct pieces as [|piece' pieces'].
      * rewrite (split_single p rest piece E) in C. discriminate.
      * rewrite <- IH. reflexivity.
    + rewrite (split_without p rest C) in E. injection E as <- <-.
      reflexivity.
Qed.

Lemma contains_before p q s :
  contains q s = false -> contains q (before p s) = false.
Proof.
  induction s as [|c rest IH]; [reflexivity|].
  cbn [contains before]. intros C. apply orb_false_iff in C.
  destruct C as [C1 C2]. destruct (p c); [reflexivity|].
  cbn [contains]. rewrite C1, (IH C2). reflexivity.
Qed.

Lemma isAtOrColon_cases c :
  (Ascii.eqb c "@" = true /\ isAtOrColon c = true)
  \/ (Ascii.eqb c "@" = false /\ Ascii.eqb c ":" = true
      /\ isAtOrColon c = true)
  \/ (Ascii.eqb c "@" = false /\ Ascii.eqb c ":" = false
      /\ isAtOrColon c = false).
Proof.
  unfold isAtOrColon.
  destruct (Ascii.eqb c "@"), (Ascii.eqb c ":"); cbn; auto.
Qed.

Lemma before_digest_slash s :
  contains isSlash (fromFirst isAtOrColon s) = false ->
  contains isSlash (before (fun c => Ascii.eqb c "@") s)
  = contains isSlash (before isAtOrColon s).
Proof.
  induction s as [|c rest IH]; [reflexivity|].
  cbn [fromFirst before].
  destruct (isAtOrColon_cases c) as [(A & I)|[(A & T & I)|(A & T & I)]];
    rewrite A, I.
  - reflexivity.
  - cbn [contains]. intros C. apply orb_false_iff in C. destruct C as [-> C].
    apply contains_before. exact C.
  - intros C. cbn [contains]. rewrite (IH C). reflexivity.
Qed.

(** The name the code derives is the stripped url whenever no [/]
    follows the first [@] or [:] of the url, that is, whenever the
    registry and path prefix has no port. *)
Lemma derived_name_stripped url :
  contains isSlash (fromFirst isAtOrColon url) = false ->
  lastOf (split isSlash (first (split isAtOrColon url))) = strippedName url.
Proof.
  rewrite first_split, lastOf_split.
  unfold strippedName, stripTag, stripPrefix, stripDigest.
  induction url as [|c rest IH]; [reflexivity|].
  cbn [fromFirst before].
  destruct (isAtOrColon_cases c) as [(A & I)|[(A & T & I)|(A & T & I)]];
    rewrite A, I.
  - reflexivity.
  - intros C. cbn [contains] in C. apply orb_false_iff in C.
    destruct C as [C1 C2]. cbn [afterLast].
    rewrite (contains_before (fun c => Ascii.eqb c "@") isSlash rest C2), C1.
    cbn [before]. rewrite T. reflexivity.
  - intros C. specialize (IH C).
    pose proof (before_digest_slash rest C) as S.
    cbn [afterLast]. rewrite S.
    destruct (contains isSlash (before isAtOrColon rest)) eqn:B;
      [exact IH|].
    rewrite (afterLast_without isSlash _ B) in IH.
    rewrite (afterLast_without isSlash _ S) in IH.
    destruct (isSlash c); [exact IH|].
    cbn [before]. rewrite T, <- IH. reflexivity.
Qed.

Lemma createImage_name_stripped {Json} (c : V1Container Json) cs image :
  contains isSlash (fromFirst isAtOrColon (container_image c)) = false ->
  createImage (Some (c :: cs)) = Some image ->
  image_name image = strippedName (container_image c)
  /\ image_url image = container_image c.
Proof.
  intros C [= <-]. cbn [image_name image_url].
  split; [apply derived_name_stripped; exact C|reflexivity].
Qed.

(** C5: the image made from a url keeps the url, and its name is the
    url with prefix and suffix stripped for a url such as
    [registry/api:v2]; but for a url whose registry has a port the name
    is not the stripped url: the name of [localhost:5000/api:v2] comes
    out as [localhost], where the url stripped of its registry and path
    prefix and of its tag is [api]. *)
Theorem createImage_registry_port {Json} (other : Json) :
  createImage (Some [mkContainer "localhost:5000/api:v2" other])
  = Some (mkImage "localhost:5000/api:v2" "localhost" None)
  /\ strippedName "localhost:5000/api:v2" = "api"
  /\ createImage (Some [mkContainer "registry/api:v2" other])
     = Some (mkImage "registry/api:v2" "api" None)
  /\ strippedName "registry/api:v2" = "api".
Proof. repeat split. Qed.

(** ** Minification *)

(** C4: minifying a minified deployment changes nothing; a minified
    deployment carries only the name, namespace and annotations of the
    metadata and the spec, and no status. *)
Theorem minifyDeployment_idempotent {Json} (x : V1beta2Deployment Json) :
  minifyDeployment (minifyDeployment x) = minifyDeployment x
  /\ status (minifyDeployment x) = None
  /\ meta_other (metadata (minifyDeployment x)) = None
  /\ meta_name (metadata (minifyDeployment x)) = meta_name (metadata x)
  /\ meta_namespace (metadata (minifyDeployment x)) = meta_namespace (metadata
      x)
  /\ meta_annotations (metadata (minifyDeployment x))
     = meta_annotations (metadata x)
  /\ spec (minifyDeployment x) = spec x.
Proof. repeat split. Qed.

(** ** Applying a snapshot *)
Section ApplySnapshotFacts.

Context {Json W : Type}.
Variable k8s : Kubernetes Json W.
Variable JSON_stringify : V1beta2Deployment Json -> string.
Variable this : KubernetesClusterRepository.

(** The loop sends the replace requests for the planned updates, one
    after the other whatever the cluster answers, and sorts their labels
    by the answers; it throws only where the substitution of an image
    throws. *)
Lemma applyDeployments_run api namespace items ignoreImage ds :
  forall applied errored st,
    applyDeployments k8s JSON_stringify api namespace items ignoreImage ds
        applied errored st =
    let (updates, thrown) := plannedUpdates JSON_stringify items ignoreImage ds
        in
    let (outcomes, w) := replaceAll k8s api namespace updates (world st) in
    (match thrown with
     | None => Ok (applied ++ successes outcomes, errored ++ failures outcomes)
     | Some e => Throw e
     end,
     {| world := w;
        calls := calls st ++ replaceRequests api namespace updates;
        events := events st;
        namespacesCache := namespacesCache st |}).
Proof.
  induction ds as [|deployment rest IH]; intros applied errored st.
  - simpl. rewrite !app_nil_r. destruct st; reflexivity.
  - cbn [applyDeployments plannedUpdates].
    unfold bind at 1, lift at 1.
    destruct (substituteImage ignoreImage
                (findCurrent items (snapshot_name deployment))
                (snapshot_data deployment)) as [target|e].
    + destruct (plannedUpdates JSON_stringify items ignoreImage rest) as [more
        thrown] eqn:P.
      destruct (needsUpdate JSON_stringify (findCurrent items (snapshot_name
          deployment)) target).
      * cbn [replaceAll]. unfold bind at 1, tryCatch at 1, request at 1.
        destruct (replaceNamespacedDeployment k8s api
                    (snapshot_name deployment) namespace target (world st))
          as [r w'].
        destruct r as [body|e]; rewrite IH; cbn [world calls events
            namespacesCache];
          destruct (replaceAll k8s api namespace more w') as [outcomes w''];
          unfold successes, failures, replaceRequests; cbn;
          rewrite <- !app_assoc; reflexivity.
      * rewrite IH. reflexivity.
    + cbn. rewrite app_nil_r. destruct st; reflexivity.
Qed.

Lemma replaceAll_length api namespace updates :
  forall w, length (fst (replaceAll k8s api namespace updates w)) = length
      updates.
Proof.
  induction updates as [|[name target] rest IH]; intros w; [reflexivity|].
  cbn [replaceAll].
  destruct (replaceNamespacedDeployment k8s api name namespace target w) as [r
      w'].
  specialize (IH w').
  destruct (replaceAll k8s api namespace rest w') as [outcomes w''].
  simpl in *. rewrite IH. reflexivity.
Qed.

(** The answers come in the order of the updates, one for each. *)
Lemma replaceAll_names api namespace updates :
  forall w,
    List.map fst (fst (replaceAll k8s api namespace updates w))
    = List.map fst updates.
Proof.
  induction updates as [|[name target] rest IH]; intros w; [reflexivity|].
  cbn [replaceAll].
  destruct (replaceNamespacedDeployment k8s api name namespace target w) as [r
      w'].
  specialize (IH w').
  destruct (replaceAll k8s api namespace rest w') as [outcomes w''].
  simpl in *. rewrite IH. reflexivity.
Qed.

(** Every answer is counted once: as a success or as a failure. *)
Lemma successes_failures_length outcomes :
  length (successes outcomes) + length (failures outcomes) = length outcomes.
Proof.
  unfold successes, failures. rewrite !length_map.
  induction outcomes as [|[name ok] rest IH]; [reflexivity|].
  destruct ok; simpl; lia.
Qed.

(** The whole method, once the API object is built and the cluster has
    answered the listing. *)
Lemma applySnapshot_run group snapshot ignoreImage st api items w1 :
  build this (group_cluster group) = Ok api ->
  listNamespacedDeployment k8s api (getNamespace group) (world st)
  = (Ok items, w1) ->
  applySnapshot k8s JSON_stringify this group snapshot ignoreImage st =
  let (updates, thrown) :=
    plannedUpdates JSON_stringify items ignoreImage (deployments_of snapshot) in
  let (outcomes, w2) := replaceAll k8s api (getNamespace group) updates w1 in
  (match thrown with
   | None => Ok tt
   | Some e => Throw e
   end,
   {| world := w2;
      calls := calls st
               ++ ListNamespacedDeployment Json api (getNamespace group)
                  :: replaceRequests api (getNamespace group) updates;
      events :=
        match thrown with
        | None =>
            if (0 <? length outcomes)%nat
            then events st
                 ++ [snapshotEvent group (Date_now k8s w2)
                       (successes outcomes) (failures outcomes)]
            else events st
        | Some _ => events st
        end;
      namespacesCache := namespacesCache st |}).
Proof.
  intros B L. unfold applySnapshot.
  unfold bind at 1, lift at 1. rewrite B.
  unfold bind at 1, request at 1. rewrite L.
  unfold bind at 1. rewrite applyDeployments_run.
  cbn [world calls events namespacesCache].
  destruct (plannedUpdates JSON_stringify items ignoreImage (deployments_of
      snapshot))
    as [updates thrown].
  destruct (replaceAll k8s api (getNamespace group) updates w1)
    as [outcomes w2].
  rewrite <- app_assoc. cbn [app].
  destruct thrown as [e|]; [reflexivity|].
  cbn [app]. rewrite successes_failures_length.
  destruct (0 <? length outcomes)%nat; reflexivity.
Qed.

(** A method that throws before it sends a request sends none. *)
Lemma applySnapshot_no_api group snapshot ignoreImage st e :
  build this (group_cluster group) = Throw e ->
  applySnapshot k8s JSON_stringify this group snapshot ignoreImage st
  = (Throw e, st).
Proof.
  intros B. unfold applySnapshot, bind at 1, lift at 1.
  rewrite B. reflexivity.
Qed.

Lemma applySnapshot_no_listing group snapshot ignoreImage st api e w1 :
  build this (group_cluster group) = Ok api ->
  listNamespacedDeployment k8s api (getNamespace group) (world st)
  = (Throw e, w1) ->
  applySnapshot k8s JSON_stringify this group snapshot ignoreImage st =
  (Throw e,
   {| world := w1;
      calls := calls st
               ++ [ListNamespacedDeployment Json api (getNamespace group)];
      events := events st;
      namespacesCache := namespacesCache st |}).
Proof.
  intros B L. unfold applySnapshot, bind at 1, lift at 1.
  rewrite B. unfold bind at 1, request at 1. rewrite L. reflexivity.
Qed.

(** What a normal return of [applySnapshot] tells. *)
Lemma applySnapshot_ok_inv group snapshot ignoreImage st st' :
  applySnapshot k8s JSON_stringify this group snapshot ignoreImage st
  = (Ok tt, st') ->
  exists api items w1 updates outcomes w2,
    build this (group_cluster group) = Ok api
    /\ listNamespacedDeployment k8s api (getNamespace group) (world st)
       = (Ok items, w1)
    /\ plannedUpdates JSON_stringify items ignoreImage (deployments_of snapshot)
       = (updates, None)
    /\ replaceAll k8s api (getNamespace group) updates w1 = (outcomes, w2)
    /\ length outcomes = length updates
    /\ calls st' = calls st
                   ++ ListNamespacedDeployment Json api (getNamespace group)
                      :: replaceRequests api (getNamespace group) updates
    /\ events st' =
       (if (0 <? length outcomes)%nat
        then events st
             ++ [snapshotEvent group (Date_now k8s w2)
                   (successes outcomes) (failures outcomes)]
        else events st).
Proof.
  intros R.
  destruct (build this (group_cluster group)) as [api|e] eqn:B.
  2:{ rewrite (applySnapshot_no_api _ snapshot ignoreImage st _ B) in R.
      discriminate. }
  destruct (listNamespacedDeployment k8s api (getNamespace group) (world st))
    as [[items|e] w1] eqn:L.
  2:{ rewrite (applySnapshot_no_listing _ snapshot ignoreImage _ _ _ _ B L) in
      R. discriminate. }
  rewrite (applySnapshot_run _ snapshot ignoreImage _ _ _ _ B L) in R.
  destruct (plannedUpdates JSON_stringify items ignoreImage (deployments_of
      snapshot))
    as [updates thrown] eqn:P.
  pose proof (replaceAll_length api (getNamespace group) updates w1) as Len.
  destruct (replaceAll k8s api (getNamespace group) updates w1)
    as [outcomes w2] eqn:A.
  destruct thrown as [e|]; [discriminate|].
  injection R as <-. cbn [calls events].
  exists api, items, w1, updates, outcomes, w2.
  repeat split; auto.
Qed.

(** The requests [applySnapshot] sends. *)
Lemma applySnapshot_sent group snapshot ignoreImage st api items w1 :
  build this (group_cluster group) = Ok api ->
  listNamespacedDeployment k8s api (getNamespace group) (world st)
  = (Ok items, w1) ->
  sent (applySnapshot k8s JSON_stringify this group snapshot ignoreImage) st =
  ListNamespacedDeployment Json api (getNamespace group)
  :: replaceRequests api (getNamespace group)
       (fst (plannedUpdates JSON_stringify items ignoreImage (deployments_of
           snapshot))).
Proof.
  intros B L. unfold sent. rewrite (applySnapshot_run _ snapshot ignoreImage _ _
      _ _ B L).
  destruct (plannedUpdates JSON_stringify items ignoreImage (deployments_of
      snapshot))
    as [updates thrown].
  destruct (replaceAll k8s api (getNamespace group) updates w1)
    as [outcomes w2].
  cbn [snd fst calls]. apply drop_app_length.
Qed.

Lemma In_replaceRequests api namespace updates a name ns
  (body : V1beta2Deployment Json) :
  In (ReplaceNamespacedDeployment a name ns body)
     (replaceRequests api namespace updates)
  <-> a = api /\ ns = namespace /\ In (name, body) updates.
Proof.
  unfold replaceRequests. rewrite in_map_iff. split.
  - intros [[n b] [E I]]. simpl in E. injection E as <- <- <- <-. auto.
  - intros (-> & -> & I). exists (name, body). auto.
Qed.

(** *** The image substituted for the recorded one *)

Lemma setImage_image (target target' : V1beta2Deployment Json)
  (c : V1Container Json) cs :
  setImage target (container_image c) = Ok target' ->
  createImage (Some (containersOf target')) = createImage (Some (c :: cs)).
Proof.
  unfold setImage.
  destruct (containers (template_spec (spec_template (spec target))))
    as [|c0 cs0]; [discriminate|].
  intros [= <-]. reflexivity.
Qed.

Lemma substituteImage_image (current target target' : V1beta2Deployment Json)
  image :
  substituteImage true (Some current) target = Ok target' ->
  createImage (Some (containersOf current)) = Some image ->
  createImage (Some (containersOf target')) = Some image.
Proof.
  unfold substituteImage. intros S I. rewrite I in S.
  destruct (containersOf current) as [|c cs]; [discriminate|].
  rewrite <- I. injection I as <-. cbn [image_url] in S.
  apply (setImage_image _ _ _ _ S).
Qed.

Lemma plannedUpdates_In items ignoreImage ds name target :
  In (name, target) (fst (plannedUpdates JSON_stringify items ignoreImage ds))
      ->
  exists d,
    In d ds /\ snapshot_name d = name
    /\ substituteImage ignoreImage (findCurrent items name) (snapshot_data d)
       = Ok target
    /\ needsUpdate JSON_stringify (findCurrent items name) target = true.
Proof.
  induction ds as [|d rest IH]; [intros []|].
  cbn [plannedUpdates].
  destruct (substituteImage ignoreImage (findCurrent items (snapshot_name d))
              (snapshot_data d)) as [t|e] eqn:S; [|intros []].
  destruct (plannedUpdates JSON_stringify items ignoreImage rest) as [more
      thrown].
  cbn [fst] in *.
  destruct (needsUpdate JSON_stringify (findCurrent items (snapshot_name d)) t)
      eqn:N.
  - intros [[= <- <-]|I].
    + exists d. repeat split; auto. left; reflexivity.
    + destruct (IH I) as (d' & I' & R). exists d'. split; [right|]; auto.
  - intros I. destruct (IH I) as (d' & I' & R). exists d'. split; [right|];
      auto.
Qed.

Lemma plannedUpdates_complete items ignoreImage ds d target :
  snd (plannedUpdates JSON_stringify items ignoreImage ds) = None ->
  In d ds ->
  substituteImage ignoreImage (findCurrent items (snapshot_name d))
    (snapshot_data d) = Ok target ->
  needsUpdate JSON_stringify (findCurrent items (snapshot_name d)) target = true
      ->
  In (snapshot_name d, target) (fst (plannedUpdates JSON_stringify items
      ignoreImage ds)).
Proof.
  induction ds as [|d0 rest IH]; [intros _ []|].
  cbn [plannedUpdates].
  destruct (substituteImage ignoreImage (findCurrent items (snapshot_name d0))
              (snapshot_data d0)) as [t|e] eqn:S; [|discriminate].
  destruct (plannedUpdates JSON_stringify items ignoreImage rest) as [more
      thrown].
  cbn [fst snd] in *. intros T [->|I] S' N.
  - rewrite S in S'. injection S' as ->. rewrite N. left; reflexivity.
  - specialize (IH T I S' N).
    destruct (needsUpdate JSON_stringify (findCurrent items (snapshot_name d0))
        t);
      [right|]; assumption.
Qed.

Lemma needsUpdate_iff current target :
  needsUpdate JSON_stringify current target = true <->
  current = None
  \/ exists c, current = Some c
              /\ JSON_stringify (minifyDeployment target)
                 <> JSON_stringify (minifyDeployment c).
Proof.
  unfold needsUpdate. destruct current as [c|].
  - rewrite negb_true_iff, String.eqb_neq. split.
    + intros N. right. exists c. auto.
    + intros [?|(c' & [= <-] & N)]; [discriminate|assumption].
  - split; auto.
Qed.

Lemma filter_isReplace_requests api namespace updates :
  List.filter (@isReplace Json) (replaceRequests api namespace updates)
  = replaceRequests api namespace updates.
Proof.
  induction updates as [|u rest IH]; [reflexivity|].
  simpl. f_equal. exact IH.
Qed.

(** *** The running image is kept *)

(** C1: with [ignoreImage], a replace request [applySnapshot] sends for a
    deployment that is present in the cluster carries the image this
    deployment is running, whatever image the snapshot records: the
    running image is put into the recorded target before the target is
    compared with the current deployment and before it is sent. *)
Theorem applySnapshot_keeps_image group snapshot st api items w1
  a name ns body current image :
  build this (group_cluster group) = Ok api ->
  listNamespacedDeployment k8s api (getNamespace group) (world st)
  = (Ok items, w1) ->
  In (ReplaceNamespacedDeployment a name ns body)
     (sent (applySnapshot k8s JSON_stringify this group snapshot true) st) ->
  findCurrent items name = Some current ->
  createImage (Some (containersOf current)) = Some image ->
  createImage (Some (containersOf body)) = Some image
  /\ (exists d, In d (deployments_of snapshot) /\ snapshot_name d = name
               /\ substituteImage true (Some current) (snapshot_data d)
                  = Ok body)
  /\ needsUpdate JSON_stringify (Some current) body = true.
Proof.
  intros B L I F C.
  rewrite (applySnapshot_sent _ snapshot true _ _ _ _ B L) in I.
  destruct I as [I|I]; [discriminate|].
  apply In_replaceRequests in I. destruct I as (_ & _ & I).
  apply plannedUpdates_In in I. destruct I as (d & Id & Nd & S & N).
  rewrite F in S, N.
  split; [|split].
  - exact (substituteImage_image _ _ _ _ S C).
  - exists d. auto.
  - exact N.
Qed.

(** *** A replace only where it is needed *)

(** [find] gives nothing exactly where no item has the name, and
    otherwise the first item that has it. *)
Lemma findCurrent_absent (items : list (V1beta2Deployment Json)) name :
  findCurrent items name = None
  <-> ~ In name (List.map (fun item => meta_name (metadata item)) items).
Proof.
  unfold findCurrent. induction items as [|x rest IH]; cbn [List.find List.map].
  - split; [intros _ []|reflexivity].
  - destruct (String.eqb (meta_name (metadata x)) name) eqn:E.
    + apply String.eqb_eq in E. split; [discriminate|].
      intros N. destruct N. left. exact E.
    + apply String.eqb_neq in E. rewrite IH. cbn [In]. tauto.
Qed.

Lemma findCurrent_present (items : list (V1beta2Deployment Json)) name
  current :
  findCurrent items name = Some current
  <-> exists pre post,
        items = pre ++ current :: post
        /\ meta_name (metadata current) = name
        /\ ~ In name (List.map (fun item => meta_name (metadata item)) pre).
Proof.
  unfold findCurrent. induction items as [|x rest IH]; cbn [List.find].
  - split; [discriminate|]. intros (pre & post & E & _).
    destruct pre; discriminate.
  - destruct (String.eqb (meta_name (metadata x)) name) eqn:E.
    + apply String.eqb_eq in E. split.
      * intros [= <-]. exists [], rest. repeat split; auto.
      * intros ([|p pre] & post & I & N & A).
        -- injection I as -> _. reflexivity.
        -- injection I as -> _. destruct A. left. exact E.
    + apply String.eqb_neq in E. rewrite IH. split.
      * intros (pre & post & -> & N & A). exists (x :: pre), post.
        repeat split; auto. cbn [List.map In]. tauto.
      * intros ([|p pre] & post & I & N & A).
        -- injection I as -> _. contradiction.
        -- injection I as -> ->. exists pre, post. repeat split; auto.
           intros I. apply A. right. exact I.
Qed.

(** The substitution throws exactly with [ignoreImage], on a recorded
    deployment without containers whose deployment in the cluster has
    one. *)
Lemma substituteImage_throws ignoreImage current
  (target : V1beta2Deployment Json) :
  (exists e, substituteImage ignoreImage current target = Throw e)
  <-> ignoreImage = true
      /\ containersOf target = []
      /\ exists c, current = Some c /\ containersOf c <> [].
Proof.
  unfold substituteImage, setImage, containersOf. split.
  - intros [e S]. destruct ignoreImage; [|discriminate].
    destruct current as [c|]; [|discriminate].
    destruct (containers (template_spec (spec_template (spec c))))
      as [|c0 cs0] eqn:C; [discriminate|].
    cbn [createImage] in S.
    destruct (containers (template_spec (spec_template (spec target))));
      [|discriminate].
    repeat split. exists c. rewrite C. split; [reflexivity|discriminate].
  - intros (-> & T & c & -> & C). rewrite T.
    destruct (containers (template_spec (spec_template (spec c))));
      [contradiction|].
    eexists. reflexivity.
Qed.

(** The plan of a batch in two parts. *)
Lemma plannedUpdates_app items ignoreImage
  (l1 l2 : list (SnapshotDeployment Json)) :
  plannedUpdates JSON_stringify items ignoreImage (l1 ++ l2) =
  match plannedUpdates JSON_stringify items ignoreImage l1 with
  | (u1, Some e) => (u1, Some e)
  | (u1, None) =>
      let (u2, thrown) := plannedUpdates JSON_stringify items ignoreImage l2 in
      (u1 ++ u2, thrown)
  end.
Proof.
  induction l1 as [|d rest IH].
  - cbn. destruct (plannedUpdates JSON_stringify items ignoreImage l2).
    reflexivity.
  - cbn [app plannedUpdates].
    destruct (substituteImage ignoreImage
                (findCurrent items (snapshot_name d)) (snapshot_data d))
      as [t|e]; [|reflexivity].
    rewrite IH.
    destruct (plannedUpdates JSON_stringify items ignoreImage rest)
      as [u1 [e|]]; [reflexivity|].
    destruct (plannedUpdates JSON_stringify items ignoreImage l2)
      as [u2 thrown].
    destruct (needsUpdate JSON_stringify
                (findCurrent items (snapshot_name d)) t); reflexivity.
Qed.

(** The loop gets past the entries whose substitution does not throw. *)
Lemma plannedUpdates_reached items ignoreImage ds :
  Forall (fun e =>
            exists t,
              substituteImage ignoreImage
                (findCurrent items (snapshot_name e)) (snapshot_data e)
              = Ok t) ds ->
  snd (plannedUpdates JSON_stringify items ignoreImage ds) = None.
Proof.
  induction 1 as [|d rest [t S] _ IH]; [reflexivity|].
  cbn [plannedUpdates]. rewrite S.
  destruct (plannedUpdates JSON_stringify items ignoreImage rest)
    as [more thrown].
  exact IH.
Qed.

Lemma plannedUpdates_prefix items ignoreImage
  (l1 l2 : list (SnapshotDeployment Json)) u :
  snd (plannedUpdates JSON_stringify items ignoreImage l1) = None ->
  In u (fst (plannedUpdates JSON_stringify items ignoreImage l1)) ->
  In u (fst (plannedUpdates JSON_stringify items ignoreImage (l1 ++ l2))).
Proof.
  intros T I. rewrite plannedUpdates_app.
  destruct (plannedUpdates JSON_stringify items ignoreImage l1) as [u1 t].
  cbn [fst snd] in *. subst t.
  destruct (plannedUpdates JSON_stringify items ignoreImage l2) as [u2 t].
  cbn [fst]. apply in_or_app. left. exact I.
Qed.

(** A batch of deployments that are all in the cluster and print as the
    cluster's do plans no update. *)
Lemma plannedUpdates_equal_texts items ignoreImage ds :
  (forall d, In d ds ->
     exists target current,
       substituteImage ignoreImage (findCurrent items (snapshot_name d))
         (snapshot_data d) = Ok target
       /\ findCurrent items (snapshot_name d) = Some current
       /\ JSON_stringify (minifyDeployment target)
          = JSON_stringify (minifyDeployment current)) ->
  plannedUpdates JSON_stringify items ignoreImage ds = ([], None).
Proof.
  induction ds as [|d rest IH]; intros A; [reflexivity|].
  cbn [plannedUpdates].
  destruct (A d (or_introl eq_refl)) as (target & current & S & F & Eq).
  rewrite S, IH by (intros d' I; apply A; right; exact I).
  rewrite F. unfold needsUpdate. rewrite Eq, String.eqb_refl. reflexivity.
Qed.

(** C2 (as amended): for every deployment recorded in the snapshot that
    the loop of [applySnapshot] comes to and past whose image
    substitution it gets, the replace request for it is sent if and only
    if no deployment of the listing has its name, or the
    [JSON.stringify] text of the minified target differs from the text of
    the minified current deployment, the first of the listing with its
    name; the texts go by the order of the keys, so the same fields
    under keys in another order are replaced, too. No other replace
    request is sent. Where every recorded deployment is in the listing
    and the two texts are equal, [applySnapshot] lists the deployments,
    sends no replace request, emits no event and returns. *)
Theorem applySnapshot_replaces_iff_texts_differ group snapshot ignoreImage st
  api items w1 :
  build this (group_cluster group) = Ok api ->
  listNamespacedDeployment k8s api (getNamespace group) (world st)
  = (Ok items, w1) ->
  (forall before d after,
     deployments_of snapshot = before ++ d :: after ->
     Forall (fun e =>
               exists t,
                 substituteImage ignoreImage
                   (findCurrent items (snapshot_name e)) (snapshot_data e)
                 = Ok t) (before ++ [d]) ->
     exists target,
       substituteImage ignoreImage (findCurrent items (snapshot_name d))
         (snapshot_data d) = Ok target
       /\ (In (ReplaceNamespacedDeployment api (snapshot_name d)
                 (getNamespace group) target)
              (sent (applySnapshot k8s JSON_stringify this group snapshot
                       ignoreImage) st)
           <-> ~ In (snapshot_name d)
                    (List.map (fun item => meta_name (metadata item)) items)
               \/ exists pre current post,
                    items = pre ++ current :: post
                    /\ meta_name (metadata current) = snapshot_name d
                    /\ ~ In (snapshot_name d)
                           (List.map (fun item => meta_name (metadata item))
                              pre)
                    /\ JSON_stringify (minifyDeployment target)
                       <> JSON_stringify (minifyDeployment current)))
  /\ (forall a name ns body,
        In (ReplaceNamespacedDeployment a name ns body)
           (sent (applySnapshot k8s JSON_stringify this group snapshot
                    ignoreImage) st) ->
        a = api /\ ns = getNamespace group
        /\ exists d, In d (deployments_of snapshot) /\ snapshot_name d = name
                     /\ substituteImage ignoreImage (findCurrent items name)
                          (snapshot_data d) = Ok body)
  /\ ((forall d, In d (deployments_of snapshot) ->
         exists target pre current post,
           substituteImage ignoreImage (findCurrent items (snapshot_name d))
             (snapshot_data d) = Ok target
           /\ items = pre ++ current :: post
           /\ meta_name (metadata current) = snapshot_name d
           /\ ~ In (snapshot_name d)
                  (List.map (fun item => meta_name (metadata item)) pre)
           /\ JSON_stringify (minifyDeployment target)
              = JSON_stringify (minifyDeployment current)) ->
      applySnapshot k8s JSON_stringify this group snapshot ignoreImage st
      = (Ok tt,
         {| world := w1;
            calls := calls st
                     ++ [ListNamespacedDeployment Json api
                           (getNamespace group)];
            events := events st;
            namespacesCache := namespacesCache st |})).
Proof.
  intros B L.
  rewrite (applySnapshot_sent _ snapshot ignoreImage _ _ _ _ B L).
  split; [|split].
  - intros before d after E R.
    pose proof (plannedUpdates_reached _ _ _ R) as T.
    apply Forall_app in R. destruct R as [_ R].
    inversion R as [|? ? [target S] _]; subst.
    exists target. split; [exact S|].
    assert (N : needsUpdate JSON_stringify
                  (findCurrent items (snapshot_name d)) target = true
                <-> ~ In (snapshot_name d)
                         (List.map (fun item => meta_name (metadata item))
                            items)
                    \/ exists pre current post,
                         items = pre ++ current :: post
                         /\ meta_name (metadata current) = snapshot_name d
                         /\ ~ In (snapshot_name d)
                                (List.map
                                   (fun item => meta_name (metadata item)) pre)
                         /\ JSON_stringify (minifyDeployment target)
                            <> JSON_stringify (minifyDeployment current)).
    { rewrite needsUpdate_iff, findCurrent_absent. split.
      - intros [A|(current & F & D)]; [left; exact A|right].
        apply findCurrent_present in F. destruct F as (pre & post & F).
        exists pre, current, post. tauto.
      - intros [A|(pre & current & post & I & Nm & A & D)];
          [left; exact A|right].
        exists current. split; [|exact D].
        apply findCurrent_present. exists pre, post. auto. }
    rewrite <- N. split.
    + intros [I|I]; [discriminate|].
      apply In_replaceRequests in I. destruct I as (_ & _ & I).
      apply plannedUpdates_In in I.
      destruct I as (d' & _ & _ & _ & N'). exact N'.
    + intros N'. right. apply In_replaceRequests. repeat split.
      rewrite E.
      change (before ++ d :: after) with (before ++ [d] ++ after).
      rewrite app_assoc. apply plannedUpdates_prefix; [exact T|].
      apply plannedUpdates_complete; auto.
      apply in_or_app. right. left. reflexivity.
  - intros a name ns body [I|I]; [discriminate|].
    apply In_replaceRequests in I. destruct I as (-> & -> & I).
    apply plannedUpdates_In in I.
    destruct I as (d & Id & Nd & S & _). repeat split. exists d. auto.
  - intros A.
    rewrite (applySnapshot_run _ snapshot ignoreImage _ _ _ _ B L).
    rewrite plannedUpdates_equal_texts; [reflexivity|].
    intros d I.
    destruct (A d I) as (target & pre & current & post & S & It & Nm & Ab & Eq).
    exists target, current. repeat split; auto.
    apply findCurrent_present. exists pre, post. auto.
Qed.

(** The events [applySnapshot] emits. *)
Lemma applySnapshot_emitted group snapshot ignoreImage st api items w1 :
  build this (group_cluster group) = Ok api ->
  listNamespacedDeployment k8s api (getNamespace group) (world st)
  = (Ok items, w1) ->
  emitted (applySnapshot k8s JSON_stringify this group snapshot ignoreImage) st
      =
  let (updates, thrown) :=
    plannedUpdates JSON_stringify items ignoreImage (deployments_of snapshot) in
  let (outcomes, w2) := replaceAll k8s api (getNamespace group) updates w1 in
  match thrown with
  | None =>
      if (0 <? length outcomes)%nat
      then [snapshotEvent group (Date_now k8s w2)
              (successes outcomes) (failures outcomes)]
      else []
  | Some _ => []
  end.
Proof.
  intros B L. unfold emitted.
  rewrite (applySnapshot_run _ snapshot ignoreImage _ _ _ _ B L).
  destruct (plannedUpdates JSON_stringify items ignoreImage (deployments_of
      snapshot))
    as [updates thrown].
  destruct (replaceAll k8s api (getNamespace group) updates w1)
    as [outcomes w2].
  cbn [snd events].
  destruct thrown as [e|]; [apply drop_all|].
  destruct (0 <? length outcomes)%nat; [apply drop_app_length|apply drop_all].
Qed.

Lemma In_successes name outcomes :
  In (name, true) outcomes -> In ("Deployment " +:+ name) (successes outcomes).
Proof.
  intros I. unfold successes. apply in_map_iff. exists (name, true).
  split; [reflexivity|]. apply filter_In. auto.
Qed.

Lemma In_failures name outcomes :
  In (name, false) outcomes -> In ("Deployment " +:+ name) (failures outcomes).
Proof.
  intros I. unfold failures. apply in_map_iff. exists (name, false).
  split; [reflexivity|]. apply filter_In. auto.
Qed.

(** *** A failure stays with its deployment *)

(** A refusal of the cluster to replace one deployment is kept to that
    deployment. Where the substitution of the image throws at no entry,
    whatever the cluster answers to the replace requests,
    [applySnapshot] does not throw, sends the request of every update it
    planned, in the order of the snapshot, and reports each update once
    in the event of the batch: the refused ones under [Failure], the
    others under [Success]. *)
Lemma applySnapshot_isolates_refusals group snapshot ignoreImage st
  api items w1 :
  build this (group_cluster group) = Ok api ->
  listNamespacedDeployment k8s api (getNamespace group) (world st)
  = (Ok items, w1) ->
  Forall (fun e =>
            exists t,
              substituteImage ignoreImage
                (findCurrent items (snapshot_name e)) (snapshot_data e)
              = Ok t) (deployments_of snapshot) ->
  let run := applySnapshot k8s JSON_stringify this group snapshot ignoreImage in
  let updates :=
    fst (plannedUpdates JSON_stringify items ignoreImage (deployments_of
        snapshot)) in
  let outcomes := fst (replaceAll k8s api (getNamespace group) updates w1) in
  fst (run st) = Ok tt
  /\ List.filter (@isReplace Json) (sent run st)
     = replaceRequests api (getNamespace group) updates
  /\ List.map fst outcomes = List.map fst updates
  /\ (updates <> [] ->
      exists timestamp,
        emitted run st
        = [snapshotEvent group timestamp (successes outcomes)
             (failures outcomes)])
  /\ (updates = [] -> emitted run st = [])
  /\ (forall name, In (name, false) outcomes ->
        In ("Deployment " +:+ name) (failures outcomes))
  /\ (forall name, In (name, true) outcomes ->
        In ("Deployment " +:+ name) (successes outcomes))
  /\ length (successes outcomes) + length (failures outcomes)
     = length updates.
Proof.
  intros B L C run updates outcomes. subst run updates outcomes.
  pose proof (plannedUpdates_reached items ignoreImage _ C) as T.
  rewrite (applySnapshot_sent _ snapshot ignoreImage _ _ _ _ B L).
  rewrite (applySnapshot_emitted _ snapshot ignoreImage _ _ _ _ B L).
  rewrite (applySnapshot_run _ snapshot ignoreImage _ _ _ _ B L).
  destruct (plannedUpdates JSON_stringify items ignoreImage (deployments_of
      snapshot))
    as [updates thrown].
  cbn [snd] in T. subst thrown. cbn [fst].
  pose proof (replaceAll_length api (getNamespace group) updates w1) as Len.
  pose proof (replaceAll_names api (getNamespace group) updates w1) as Names.
  destruct (replaceAll k8s api (getNamespace group) updates w1)
    as [outcomes w2].
  cbn [fst] in *.
  split; [reflexivity|].
  split; [cbn [List.filter isReplace]; apply filter_isReplace_requests|].
  split; [exact Names|].
  split.
  { intros N. exists (Date_now k8s w2).
    destruct updates; [contradiction|].
    destruct outcomes; [discriminate|]. reflexivity. }
  split.
  { intros ->. destruct outcomes; [reflexivity|discriminate]. }
  split; [intros name; apply In_failures|].
  split; [intros name; apply In_successes|].
  rewrite successes_failures_length. exact Len.
Qed.

(** *** The default namespace *)


(** Every request of [applySnapshot] goes to the namespace of the group. *)
Lemma applySnapshot_namespace group snapshot ignoreImage st c :
  In c (sent (applySnapshot k8s JSON_stringify this group snapshot ignoreImage)
      st) ->
  callNamespace c = Some (getNamespace group).
Proof.
  unfold sent.
  destruct (build this (group_cluster group)) as [api|e] eqn:B.
  2:{ rewrite (applySnapshot_no_api _ snapshot ignoreImage st _ B).
      cbn [snd]. rewrite drop_all. intros []. }
  destruct (listNamespacedDeployment k8s api (getNamespace group) (world st))
    as [[items|e] w1] eqn:L.
  2:{ rewrite (applySnapshot_no_listing _ snapshot ignoreImage _ _ _ _ B L).
      cbn [snd calls]. rewrite drop_app_length.
      intros [<-|[]]. reflexivity. }
  fold (sent (applySnapshot k8s JSON_stringify this group snapshot ignoreImage)
      st).
  rewrite (applySnapshot_sent _ snapshot ignoreImage _ _ _ _ B L).
  intros [<-|I]; [reflexivity|].
  unfold replaceRequests in I. apply in_map_iff in I.
  destruct I as (u & <- & _). reflexivity.
Qed.

(** The other methods that take a group. *)
Ltac run_method :=
  repeat match goal with
    | |- context [build ?t ?c] => destruct (build t c) as [?api|?e]
    | |- context [bind] => unfold bind at 1
    | |- context [lift] => unfold lift at 1
    | |- context [request] => unfold request at 1
    | |- context [ret] => unfold ret at 1
    | |- context [listNamespacedPod ?k ?a ?n ?x] =>
        destruct (listNamespacedPod k a n x) as [[?body|?e] ?w]
    | |- context [listNamespacedDeployment ?k ?a ?n ?x] =>
        destruct (listNamespacedDeployment k a n x) as [[?body|?e] ?w]
    | |- context [listNamespacedHorizontalPodAutoscaler ?k ?a ?n ?x] =>
        destruct (listNamespacedHorizontalPodAutoscaler k a n x)
          as [[?body|?e] ?w]
    | |- context [readNamespacedDeployment ?k ?a ?d ?n ?x] =>
        destruct (readNamespacedDeployment k a d n x) as [[?body|?e] ?w]
    | |- context [replaceNamespacedDeployment ?k ?a ?d ?n ?t ?x] =>
        destruct (replaceNamespacedDeployment k a d n t x) as [[?body|?e] ?w]
    | |- context [match setImage ?t ?u with _ => _ end] =>
        destruct (setImage t u) as [?target|?e]
    | _ => progress cbn [fst snd world calls events namespacesCache]
    end.

Ltac sent_in_namespace :=
  unfold sent; run_method;
  rewrite <- ?app_assoc, ?drop_app_length, ?drop_all; cbn [app];
  intros I; repeat (destruct I as [<-|I]; [reflexivity|]); destruct I.

Lemma pods_namespace group st c :
  In c (sent (pods k8s this group) st) ->
  callNamespace c = Some (getNamespace group).
Proof. unfold pods. sent_in_namespace. Qed.

Lemma deployments_namespace group st c :
  In c (sent (deployments k8s this group) st) ->
  callNamespace c = Some (getNamespace group).
Proof. unfold deployments. sent_in_namespace. Qed.

Lemma scalers_namespace group st c :
  In c (sent (scalers k8s this group) st) ->
  callNamespace c = Some (getNamespace group).
Proof. unfold scalers. sent_in_namespace. Qed.

Lemma takeSnapshot_namespace group st c :
  In c (sent (takeSnapshot k8s this group) st) ->
  callNamespace c = Some (getNamespace group).
Proof. unfold takeSnapshot. sent_in_namespace. Qed.

Lemma updateDeployment_namespace group deployment targetImage st c :
  In c (sent (updateDeployment k8s this group deployment targetImage) st) ->
  callNamespace c = Some (getNamespace group).
Proof. unfold updateDeployment. sent_in_namespace. Qed.


End ApplySnapshotFacts.

(** *** The test cluster *)

(** Applying the test snapshot with [ignoreImage]: [worker] is not in the
    cluster and its replace fails, [api] is replaced with the image it
    runs and the recorded replicas, [web] is left alone. *)
Example applySnapshot_test_requests :
  sent (applySnapshot testKubernetes testStringify testRepository testGroup
          testSnapshot true) (testState testCluster)
  = [ListNamespacedDeployment string testApi "default";
     ReplaceNamespacedDeployment testApi "worker" "default"
       (minifyDeployment (testDeployment "worker" "registry/worker:v1"
           "replicas: 1"));
     ReplaceNamespacedDeployment testApi "api" "default"
       (minifyDeployment (testDeployment "api" "registry/api:v2"
           "replicas: 3"))].
Proof. vm_compute. reflexivity. Qed.

Example applySnapshot_test_event :
  emitted (applySnapshot testKubernetes testStringify testRepository testGroup
             testSnapshot true) (testState testCluster)
  = [{| event_message := "Applied Snapshots";
        event_timestamp := 1541203200000;
        event_topics := ["slack"];
        event_description := "Applied Snapshots in develop ∞ undefined";
        event_fields :=
          [mkField "Deployment worker" "Failure";
           mkField "Deployment api" "Success"] |}].
Proof. vm_compute. reflexivity. Qed.

(** The deployments of the cluster run the images they ran before. *)
Example applySnapshot_test_images :
  List.map (fun d => createImage (Some (containersOf d))) (world testApplied)
  = List.map (fun d => createImage (Some (containersOf d))) testCluster.
Proof. vm_compute. reflexivity. Qed.

(** A second apply of the same snapshot finds [api] as recorded: only the
    request for [worker] is repeated. *)
Example applySnapshot_test_again :
  let st := snd (applySnapshot testKubernetes testStringify testRepository
                   testGroup testSnapshot true (testState testCluster)) in
  List.filter (@isReplace string)
    (sent (applySnapshot testKubernetes testStringify testRepository testGroup
             testSnapshot true) st)
  = [ReplaceNamespacedDeployment testApi "worker" "default"
       (minifyDeployment (testDeployment "worker" "registry/worker:v1"
           "replicas: 1"))].
Proof. vm_compute. reflexivity. Qed.

Lemma applySnapshot_keeps_image_witness :
  createImage
    (Some (containersOf
             (minifyDeployment (testDeployment "api" "registry/api:v2"
                 "replicas: 3"))))
  = Some (mkImage "registry/api:v2" "api" None)
  /\ (exists d,
        In d (deployments_of testSnapshot) /\ snapshot_name d = "api"
        /\ substituteImage true
             (Some (testDeployment "api" "registry/api:v2" "replicas: 1"))
             (snapshot_data d)
           = Ok (minifyDeployment
                   (testDeployment "api" "registry/api:v2" "replicas: 3")))
  /\ needsUpdate testStringify
       (Some (testDeployment "api" "registry/api:v2" "replicas: 1"))
       (minifyDeployment (testDeployment "api" "registry/api:v2" "replicas: 3"))
     = true.
Proof.
  apply (applySnapshot_keeps_image testKubernetes testStringify testRepository
           testGroup testSnapshot (testState testCluster) testApi testCluster
           testCluster testApi "api" "default").
  - vm_compute. reflexivity.
  - reflexivity.
  - vm_compute. right. right. left. reflexivity.
  - reflexivity.
  - reflexivity.
Defined.

(** On the test cluster, with [ignoreImage]: [api], recorded with more
    replicas, prints differently and is replaced. *)
Lemma applySnapshot_replaces_iff_texts_differ_witness :
  exists target,
    substituteImage true (findCurrent testCluster "api")
      (minifyDeployment (testDeployment "api" "registry/api:v1" "replicas: 3"))
    = Ok target
    /\ (In (ReplaceNamespacedDeployment testApi "api" "default" target)
           (sent (applySnapshot testKubernetes orderedStringify testRepository
                    testGroup testSnapshot true) (testState testCluster))
        <-> ~ In "api"
                 (List.map (fun item => meta_name (metadata item)) testCluster)
            \/ exists pre current post,
                 testCluster = pre ++ current :: post
                 /\ meta_name (metadata current) = "api"
                 /\ ~ In "api"
                        (List.map (fun item => meta_name (metadata item)) pre)
                 /\ orderedStringify (minifyDeployment target)
                    <> orderedStringify (minifyDeployment current)).
Proof.
  refine (proj1
            (applySnapshot_replaces_iff_texts_differ testKubernetes
               orderedStringify testRepository testGroup testSnapshot true
               (testState testCluster) testApi testCluster testCluster _ _)
            [mkSnapshotDeployment "worker"
               (minifyDeployment
                  (testDeployment "worker" "registry/worker:v1"
                     "replicas: 1"))]
            (mkSnapshotDeployment "api"
               (minifyDeployment
                  (testDeployment "api" "registry/api:v1" "replicas: 3")))
            [mkSnapshotDeployment "web"
               (minifyDeployment
                  (testDeployment "web" "registry/web:v5" "replicas: 2"))]
            _ _).
  - vm_compute. reflexivity.
  - reflexivity.
  - reflexivity.
  - repeat constructor; eexists; reflexivity.
Defined.

(** C2, as the spec states it, fails where only the order of keys
    differs. The cluster runs [api] with the annotations [owner] and
    [tier]; the snapshot records [api] with the same name, namespace and
    spec and the same two annotations, [tier] before [owner]. The two
    minified forms are structurally equal, and the deployment is in the
    cluster; the texts differ, and [applySnapshot] sends the replace
    request. *)
Lemma applySnapshot_replaces_structurally_equal :
  let run :=
    applySnapshot testKubernetes orderedStringify testRepository testGroup
      (mkSnapshot [mkSnapshotDeployment "api" testAnnotationsSwapped]) true in
  findCurrent [testAnnotated] "api" = Some testAnnotated
  /\ structurallyEqual (minifyDeployment testAnnotationsSwapped)
       (minifyDeployment testAnnotated)
  /\ sent run (testState [testAnnotated])
     = [ListNamespacedDeployment string testApi "default";
        ReplaceNamespacedDeployment testApi "api" "default"
          testAnnotationsSwapped]
  /\ ~ (In (ReplaceNamespacedDeployment testApi "api" "default"
              testAnnotationsSwapped)
           (sent run (testState [testAnnotated]))
        <-> findCurrent [testAnnotated] "api" = None
            \/ ~ structurallyEqual (minifyDeployment testAnnotationsSwapped)
                   (minifyDeployment testAnnotated)).
Proof.
  assert (E : structurallyEqual (minifyDeployment testAnnotationsSwapped)
                (minifyDeployment testAnnotated)).
  { unfold structurallyEqual. cbn. repeat split; try reflexivity.
    apply perm_swap. }
  assert (S : sent (applySnapshot testKubernetes orderedStringify
                      testRepository testGroup
                      (mkSnapshot
                         [mkSnapshotDeployment "api" testAnnotationsSwapped])
                      true) (testState [testAnnotated])
              = [ListNamespacedDeployment string testApi "default";
                 ReplaceNamespacedDeployment testApi "api" "default"
                   testAnnotationsSwapped])
    by (vm_compute; reflexivity).
  cbv zeta. rewrite S.
  split; [reflexivity|]. split; [exact E|]. split; [reflexivity|].
  intros [H _].
  destruct H as [H|H];
    [right; left; reflexivity|discriminate|exact (H E)].
Qed.

(** The same with the keys of the spec: the snapshot records the spec of
    [api] with [template] before [replicas]. *)
Example applySnapshot_test_keys_swapped :
  structurallyEqual (minifyDeployment testKeysSwapped)
    (minifyDeployment testAnnotated)
  /\ sent (applySnapshot testKubernetes orderedStringify testRepository
             testGroup (mkSnapshot [mkSnapshotDeployment "api" testKeysSwapped])
             true) (testState [testAnnotated])
     = [ListNamespacedDeployment string testApi "default";
        ReplaceNamespacedDeployment testApi "api" "default" testKeysSwapped].
Proof.
  split; [|vm_compute; reflexivity].
  unfold structurallyEqual. cbn. repeat split; try reflexivity.
  change ["template"; "spec"; "containers"; "image"; "replicas"]
    with (["template"; "spec"; "containers"; "image"] ++ ["replicas"]).
  change ["replicas"; "template"; "spec"; "containers"; "image"]
    with (["replicas"] ++ ["template"; "spec"; "containers"; "image"]).
  apply Permutation_app_comm.
Qed.

(** C3: a batch in which applying one deployment fails is not always
    carried through. With [ignoreImage], on the test cluster with [job],
    the snapshot records [worker], which the cluster refuses, [api],
    which it replaces, [job] without containers, and [web] with more
    replicas. The refusal of [worker] is kept to [worker] and [api] is
    replaced; but putting the running image into [job] throws a
    [TypeError] outside the [try]: [applySnapshot] throws it, [web] is
    never attempted, and no event reports [worker] and [api]. Without
    the entry of [job] the same batch returns, with [web] replaced and
    the three reported. *)
Theorem applySnapshot_raises_mid_batch :
  let st := testState testClusterWithJob in
  let run :=
    applySnapshot testKubernetes orderedStringify testRepository testGroup
      testSnapshotRefusedAndBare true in
  let without :=
    applySnapshot testKubernetes orderedStringify testRepository testGroup
      testSnapshotRefused true in
  let request name image replicas :=
    ReplaceNamespacedDeployment testApi name "default"
      (minifyDeployment (testDeployment name image replicas)) in
  (fst (run st) = Throw (TypeError "Cannot set property 'image' of undefined")
   /\ sent run st
      = [ListNamespacedDeployment string testApi "default";
         request "worker" "registry/worker:v1" "replicas: 1";
         request "api" "registry/api:v2" "replicas: 3"]
   /\ emitted run st = [])
  /\ (fst (without st) = Ok tt
      /\ sent without st
         = [ListNamespacedDeployment string testApi "default";
            request "worker" "registry/worker:v1" "replicas: 1";
            request "api" "registry/api:v2" "replicas: 3";
            request "web" "registry/web:v5" "replicas: 4"]
      /\ List.map event_fields (emitted without st)
         = [[mkField "Deployment worker" "Failure";
             mkField "Deployment api" "Success";
             mkField "Deployment web" "Success"]]).
Proof. vm_compute. repeat split; reflexivity. Qed.

(** C6: a batch with applied deployments can go without its event. With
    [ignoreImage], on the test cluster with [job], the snapshot records
    [api] with more replicas, [job] without containers, and [web]:
    [api] is replaced in the cluster, so the batch of applied
    deployments is not empty; putting the running image into [job] then
    throws, and [applySnapshot] ends without the event. *)
Theorem applySnapshot_applied_without_event :
  let st := testState testClusterWithJob in
  let run :=
    applySnapshot testKubernetes orderedStringify testRepository testGroup
      testSnapshotWithBare true in
  let applied :=
    minifyDeployment (testDeployment "api" "registry/api:v2" "replicas: 3") in
  List.filter (@isReplace string) (sent run st)
  = [ReplaceNamespacedDeployment testApi "api" "default" applied]
  /\ findCurrent (world st) "api"
     = Some (testDeployment "api" "registry/api:v2" "replicas: 1")
  /\ findCurrent (world (snd (run st))) "api" = Some applied
  /\ (exists message, fst (run st) = Throw (TypeError message))
  /\ emitted run st = [].
Proof.
  vm_compute. repeat split; try reflexivity. eexists; reflexivity.
Qed.

(** ** The dashboard *)
Section DashboardFacts.

Context {S Config : Type}.
Variable d : Dispatcher S.
Variable toISOString : Z -> string.
Variable config : option Config.
Variable VERSION : option string.

Lemma namespacesOfAll_cons cluster rest s :
  namespacesOfAll d (cluster :: rest) s =
  match call_namespaces d cluster s with
  | (Ok known, s1) =>
      match namespacesOfAll d rest s1 with
      | (Ok views, s2) => (Ok (mkClusterView cluster known :: views), s2)
      | (Throw e, s2) => (Throw e, s2)
      end
  | (Throw e, s1) => (Throw e, s1)
  end.
Proof. reflexivity. Qed.

Lemma loadNamespaces_cons cluster rest views s :
  loadNamespaces d (cluster :: rest) views s =
  match call_namespaces d cluster s with
  | (Ok known, s1) =>
      loadNamespaces d rest (views ++ [mkClusterView cluster known]) s1
  | (Throw e, s1) => (Ok (views, Some e), s1)
  end.
Proof.
  cbn [loadNamespaces]. unfold bind, tryCatch.
  destruct (call_namespaces d cluster s) as [[known|e] s1]; reflexivity.
Qed.

Lemma schedulesOfAll_cons pipeline rest s :
  schedulesOfAll d toISOString (pipeline :: rest) s =
  match call_schedules d pipeline s with
  | (Ok known, s1) =>
      match schedulesOfAll d toISOString rest s1 with
      | (Ok views, s2) => (Ok (jobView toISOString pipeline known :: views), s2)
      | (Throw e, s2) => (Throw e, s2)
      end
  | (Throw e, s1) => (Throw e, s1)
  end.
Proof. reflexivity. Qed.

Lemma loadSchedules_cons pipeline rest views s :
  loadSchedules d toISOString (pipeline :: rest) views s =
  match call_schedules d pipeline s with
  | (Ok known, s1) =>
      loadSchedules d toISOString rest
        (views ++ [jobView toISOString pipeline known]) s1
  | (Throw e, s1) => (Ok (views, Some e), s1)
  end.
Proof.
  cbn [loadSchedules]. unfold bind, tryCatch.
  destruct (call_schedules d pipeline s) as [[known|e] s1]; reflexivity.
Qed.

(** What the loop of the first [try] block leaves, next to the sub-query
    it runs: the views of all clusters when the sub-query succeeds, the
    views pushed so far and the exception when it throws; in the same
    state. *)
Lemma loadNamespaces_query knownClusters :
  forall views s,
    exists got,
      loadNamespaces d knownClusters views s
      = (Ok (views ++ got,
             match fst (namespacesOfAll d knownClusters s) with
             | Ok _ => None
             | Throw e => Some e
             end),
         snd (namespacesOfAll d knownClusters s))
      /\ forall all, fst (namespacesOfAll d knownClusters s) = Ok all -> got =
          all.
Proof.
  induction knownClusters as [|cluster rest IH]; intros views s.
  - exists []. split; [simpl; rewrite app_nil_r; reflexivity|].
    simpl. intros all [= <-]. reflexivity.
  - rewrite loadNamespaces_cons, namespacesOfAll_cons.
    destruct (call_namespaces d cluster s) as [[known|e] s1].
    + destruct (IH (views ++ [mkClusterView cluster known]) s1)
        as (got & E & A).
      exists (mkClusterView cluster known :: got).
      rewrite E, <- app_assoc.
      destruct (namespacesOfAll d rest s1) as [[all|e] s2]; cbn [fst snd] in *.
      * split; [reflexivity|]. intros ? [= <-]. rewrite (A all); reflexivity.
      * split; [reflexivity|]. discriminate.
    + exists []. cbn [fst snd]. rewrite app_nil_r.
      split; [reflexivity|discriminate].
Qed.

Lemma loadSchedules_query knownPipelines :
  forall views s,
    exists got,
      loadSchedules d toISOString knownPipelines views s
      = (Ok (views ++ got,
             match fst (schedulesOfAll d toISOString knownPipelines s) with
             | Ok _ => None
             | Throw e => Some e
             end),
         snd (schedulesOfAll d toISOString knownPipelines s))
      /\ forall all,
          fst (schedulesOfAll d toISOString knownPipelines s) = Ok all ->
          got = all.
Proof.
  induction knownPipelines as [|pipeline rest IH]; intros views s.
  - exists []. split; [simpl; rewrite app_nil_r; reflexivity|].
    simpl. intros all [= <-]. reflexivity.
  - rewrite loadSchedules_cons, schedulesOfAll_cons.
    destruct (call_schedules d pipeline s) as [[known|e] s1].
    + destruct (IH (views ++ [jobView toISOString pipeline known]) s1)
        as (got & E & A).
      exists (jobView toISOString pipeline known :: got).
      rewrite E, <- app_assoc.
      destruct (schedulesOfAll d toISOString rest s1) as [[all|e] s2];
        cbn [fst snd] in *.
      * split; [reflexivity|]. intros ? [= <-]. rewrite (A all); reflexivity.
      * split; [reflexivity|]. discriminate.
    + exists []. cbn [fst snd]. rewrite app_nil_r.
      split; [reflexivity|discriminate].
Qed.

Lemma clustersBlock_query s :
  exists got,
    clustersBlock d s
    = (Ok (got, match fst (clustersQuery d s) with
                | Ok _ => None
                | Throw e => Some e
                end),
       snd (clustersQuery d s))
    /\ forall all, fst (clustersQuery d s) = Ok all -> got = Some all.
Proof.
  unfold clustersBlock, clustersQuery, bind, tryCatch.
  destruct (call_clusters d s) as [[knownClusters|e] s1].
  - destruct (loadNamespaces_query knownClusters [] s1) as (got & E & A).
    rewrite E. exists (Some got). cbn [fst snd app ret].
    destruct (namespacesOfAll d knownClusters s1) as [[all|e] s2];
      cbn [fst snd] in *.
    + split; [reflexivity|]. intros ? [= <-]. rewrite (A all); reflexivity.
    + split; [reflexivity|discriminate].
  - exists None. split; [reflexivity|discriminate].
Qed.

Lemma jobsBlock_query s :
  exists got,
    jobsBlock d toISOString s
    = (Ok (got, match fst (jobsQuery d toISOString s) with
                | Ok _ => None
                | Throw e => Some e
                end),
       snd (jobsQuery d toISOString s))
    /\ forall all, fst (jobsQuery d toISOString s) = Ok all -> got = Some all.
Proof.
  unfold jobsBlock, jobsQuery, bind, tryCatch.
  destruct (call_pipelines d s) as [[knownPipelines|e] s1].
  - destruct (loadSchedules_query knownPipelines [] s1) as (got & E & A).
    rewrite E. exists (Some got). cbn [fst snd app ret].
    destruct (schedulesOfAll d toISOString knownPipelines s1)
      as [[all|e] s2]; cbn [fst snd] in *.
    + split; [reflexivity|]. intros ? [= <-]. rewrite (A all); reflexivity.
    + split; [reflexivity|discriminate].
  - exists None. split; [reflexivity|discriminate].
Qed.

Lemma index_blocks s :
  index d toISOString config VERSION s =
  match clustersBlock d s with
  | (Throw e, s1) => (Throw e, s1)
  | (Ok b1, s1) =>
      match jobsBlock d toISOString s1 with
      | (Throw e, s2) => (Throw e, s2)
      | (Ok b2, s2) =>
          let (r, s3) := call_list d s2 in
          (Ok {| index_title := "Spacegun ∞ Dashboard";
                 index_clusters := fst b1;
                 index_jobs := fst b2;
                 index_images :=
                   match r with Ok l => Some l | Throw _ => None end;
                 index_config := config;
                 index_version := VERSION;
                 index_errors :=
                   pushError
                     (pushError
                        (pushError [] "Clusters could not be loaded: " (snd b1))
                        "Jobs could not be loaded: " (snd b2))
                     "Images could not be loaded: "
                     (match r with Ok _ => None | Throw e => Some e end) |},
           s3)
      end
  end.
Proof.
  unfold index. unfold bind at 1.
  destruct (clustersBlock d s) as [[b1|x1] s1]; [|reflexivity].
  unfold bind at 1.
  destruct (jobsBlock d toISOString s1) as [[b2|x2] s2]; [|reflexivity].
  unfold bind at 1, tryCatch at 1.
  destruct (call_list d s2) as [r s3]. reflexivity.
Qed.

(** C7: the index handler never throws. It runs its three sub-queries
    (clusters with their namespaces, jobs with their schedules, images)
    one after the other, each whatever became of the ones before; its
    error list has one message for each sub-query that failed, in that
    order, and nothing else; and it returns the result of each sub-query
    that succeeded. *)
Theorem index_collects_errors (s : S) :
  let q1 := clustersQuery d s in
  let q2 := jobsQuery d toISOString (snd q1) in
  let q3 := imagesQuery d (snd q2) in
  exists view,
    index d toISOString config VERSION s = (Ok view, snd q3)
    /\ index_errors view
       = failureMessage "Clusters could not be loaded: " (fst q1)
         ++ failureMessage "Jobs could not be loaded: " (fst q2)
         ++ failureMessage "Images could not be loaded: " (fst q3)
    /\ (forall clusters, fst q1 = Ok clusters ->
          index_clusters view = Some clusters)
    /\ (forall jobs, fst q2 = Ok jobs -> index_jobs view = Some jobs)
    /\ (forall images, fst q3 = Ok images -> index_images view = Some images)
    /\ length (index_errors view)
       = length (List.filter (fun failed : bool => failed)
                   [match fst q1 with Ok _ => false | Throw _ => true end;
                    match fst q2 with Ok _ => false | Throw _ => true end;
                    match fst q3 with Ok _ => false | Throw _ => true end]).
Proof.
  intros q1 q2 q3. subst q1 q2 q3.
  rewrite index_blocks.
  destruct (clustersBlock_query s) as (got1 & -> & A1).
  destruct (jobsBlock_query (snd (clustersQuery d s))) as (got2 & -> & A2).
  unfold imagesQuery.
  destruct (clustersQuery d s) as [r1 s1]. cbn [fst snd] in *.
  destruct (jobsQuery d toISOString s1) as [r2 s2]. cbn [fst snd] in *.
  destruct (call_list d s2) as [r3 s3]. cbn [fst snd] in *.
  eexists. split; [reflexivity|].
  cbn [index_errors index_clusters index_jobs index_images].
  split; [|split; [|split; [|split]]].
  - destruct r1, r2, r3; reflexivity.
  - intros clusters E. exact (A1 clusters E).
  - intros jobs E. exact (A2 jobs E).
  - intros images ->. reflexivity.
  - destruct r1, r2, r3; reflexivity.
Qed.

End DashboardFacts.

(** On the test dispatcher the handler shows the cluster it could load,
    the job, and two errors. *)
Example index_test :
  fst (index testDispatcher (fun _ => "2018-11-03T00:05:00.000Z")
         (@None unit) (Some "0.10.0") tt)
  = Ok {| index_title := "Spacegun ∞ Dashboard";
          index_clusters := Some [mkClusterView "develop" ["default"]];
          index_jobs :=
            Some [mkJobView
                    (mkPipeline "develop-job" "develop" None "image"
                       "^(?!.*latest).*$")
                    None (Some "2018-11-03T00:05:00.000Z")];
          index_images := None;
          index_config := None;
          index_version := Some "0.10.0";
          index_errors :=
            ["Clusters could not be loaded: connect ECONNREFUSED";
             "Images could not be loaded: 503"] |}.
Proof. reflexivity. Qed.

(** ** The cache *)
Section SingleFlightFacts.

Context {K : Type} `{Countable K} {V : Type}.
Variable Caller : Type.
Variable ttl : Z.

Implicit Types (st : @CacheState K _ _ V Caller) (key : K).

(** A value that is stale stays stale. *)
Lemma isFresh_later (e : CacheEntry V) time0 time :
  (time0 <= time)%Z -> isFresh ttl time0 e = false -> isFresh ttl time e =
      false.
Proof. unfold isFresh. rewrite !Z.ltb_ge. lia. Qed.

Lemma cached_later (c : gmap K (CacheEntry V)) key time0 time :
  (time0 <= time)%Z ->
  cached ttl time0 key c = None -> cached ttl time key c = None.
Proof.
  unfold cached. intros L. destruct (c !! key) as [e|]; [|reflexivity].
  destruct (isFresh ttl time0 e) eqn:F; [discriminate|].
  rewrite (isFresh_later e time0 time L F). reflexivity.
Qed.

Lemma cached_store_ne (c : gmap K (CacheEntry V)) key key' time time' v :
  key' <> key ->
  cached ttl time key (store time' key' v c) = cached ttl time key c.
Proof.
  intros N. unfold cached, store. rewrite lookup_insert_ne by exact N.
  reflexivity.
Qed.

Lemma observedFor_app key st (more : list (Caller * K * Result V)) :
  List.filter (fun o => bool_decide (snd (fst o) = key)) (observed st ++ more)
  = observedFor key st
    ++ List.filter (fun o => bool_decide (snd (fst o) = key)) more.
Proof. unfold observedFor. apply List.filter_app. Qed.

Lemma observed_other key key' (outcome : Result V) (waiting : list Caller) :
  key' <> key ->
  List.filter (fun o => bool_decide (snd (fst o) = key))
    (List.map (fun c => (c, key', outcome)) waiting) = [].
Proof.
  intros N. induction waiting as [|c rest IH]; [reflexivity|].
  cbn [List.map List.filter fst snd].
  rewrite bool_decide_eq_false_2 by exact N. exact IH.
Qed.

Lemma observed_same key (outcome : Result V) (waiting : list Caller) :
  List.filter (fun o => bool_decide (snd (fst o) = key))
    (List.map (fun c => (c, key, outcome)) waiting)
  = List.map (fun c => (c, key, outcome)) waiting.
Proof.
  induction waiting as [|c rest IH]; [reflexivity|].
  cbn [List.map List.filter fst snd].
  rewrite bool_decide_eq_true_2 by reflexivity. f_equal. exact IH.
Qed.

Lemma invocationsFor_app key (ks more : list K) :
  length (List.filter (fun k => bool_decide (k = key)) (ks ++ more))
  = length (List.filter (fun k => bool_decide (k = key)) ks)
    + length (List.filter (fun k => bool_decide (k = key)) more).
Proof. rewrite List.filter_app, length_app. reflexivity. Qed.

Lemma invocationsFor_other key key' st st' :
  key' <> key ->
  invocations st' = invocations st ++ [key'] ->
  invocationsFor key st' = invocationsFor key st.
Proof.
  intros N E. unfold invocationsFor. rewrite E, invocationsFor_app.
  cbn [List.filter]. rewrite bool_decide_eq_false_2 by exact N. cbn. lia.
Qed.

Lemma invocationsFor_same key st st' :
  invocations st' = invocations st ++ [key] ->
  invocationsFor key st' = Datatypes.S (invocationsFor key st).
Proof.
  intros E. unfold invocationsFor. rewrite E, invocationsFor_app.
  cbn [List.filter]. rewrite bool_decide_eq_true_2 by reflexivity. cbn. lia.
Qed.

Lemma cacheRun_cons st ev evs :
  cacheRun ttl st (ev :: evs) = cacheRun ttl (cacheStep ttl st ev) evs.
Proof. reflexivity. Qed.

(** The state of [key] during a run in which no computation for [key]
    settles and every call for [key] finds no fresh value: nobody
    observes anything for [key]; the callers for [key] queue up behind
    the computation in flight; and the supplier is invoked for [key]
    only by the first of them, and only when nothing was in flight. *)
Lemma cacheRun_inFlight key time0 evs :
  forall st,
    cached ttl time0 key (settled st) = None ->
    notBefore time0 key evs = true ->
    unsettled key evs = true ->
    let st1 := cacheRun ttl st evs in
    cached ttl time0 key (settled st1) = None
    /\ observedFor key st1 = observedFor key st
    /\ match inFlight st !! key, callersOf key evs with
       | Some waiting, callers =>
           inFlight st1 !! key = Some (waiting ++ callers)
           /\ invocationsFor key st1 = invocationsFor key st
       | None, [] =>
           inFlight st1 !! key = None
           /\ invocationsFor key st1 = invocationsFor key st
       | None, callers =>
           inFlight st1 !! key = Some callers
           /\ invocationsFor key st1 = Datatypes.S (invocationsFor key st)
       end.
Proof.
  induction evs as [|ev rest IH]; intros st C B U.
  - cbn. split; [exact C|]. split; [reflexivity|].
    destruct (inFlight st !! key); [rewrite app_nil_r|]; auto.
  - cbv zeta. rewrite cacheRun_cons.
    destruct ev as [caller key' time|key' outcome time].
    + cbn [notBefore unsettled callersOf] in *.
      apply andb_true_iff in B. destruct B as [B1 B].
      destruct (decide (key' = key)) as [->|N].
      * apply Z.leb_le in B1.
        cbn [cacheStep]. rewrite (cached_later _ _ _ _ B1 C).
        destruct (inFlight st !! key) as [waiting|] eqn:F.
        -- match goal with
           | |- context [cacheRun _ ?s rest] =>
               destruct (IH s C B U) as (C1 & O1 & I1)
           end.
           cbn [inFlight settled] in I1. rewrite lookup_insert_eq in I1.
           split; [exact C1|]. split; [exact O1|].
           rewrite <- app_assoc in I1. exact I1.
        -- match goal with
           | |- context [cacheRun _ ?s rest] =>
               destruct (IH s C B U) as (C1 & O1 & I1)
           end.
           cbn [inFlight settled] in I1. rewrite lookup_insert_eq in I1.
           split; [exact C1|]. split; [exact O1|].
           match goal with
           | |- context [cacheRun _ ?s rest] =>
               rewrite (invocationsFor_same key st s eq_refl) in I1
           end.
           exact I1.
      * cbn [cacheStep].
        destruct (cached ttl time key' (settled st)) as [v|].
        -- match goal with
           | |- context [cacheRun _ ?s rest] =>
               destruct (IH s C B U) as (C1 & O1 & I1)
           end.
           cbn [inFlight settled] in I1.
           split; [exact C1|]. split; [|exact I1].
           rewrite O1. unfold observedFor at 1. cbn [observed].
           rewrite observedFor_app. cbn [List.filter fst snd].
           rewrite bool_decide_eq_false_2 by exact N. apply app_nil_r.
        -- destruct (inFlight st !! key') as [waiting'|].
           ++ match goal with
              | |- context [cacheRun _ ?s rest] =>
                  destruct (IH s C B U) as (C1 & O1 & I1)
              end.
              cbn [inFlight settled] in I1.
              rewrite lookup_insert_ne in I1 by exact N.
              split; [exact C1|]. split; [exact O1|exact I1].
           ++ match goal with
              | |- context [cacheRun _ ?s rest] =>
                  destruct (IH s C B U) as (C1 & O1 & I1)
              end.
              cbn [inFlight settled] in I1.
              rewrite lookup_insert_ne in I1 by exact N.
              split; [exact C1|]. split; [exact O1|].
              match goal with
              | |- context [cacheRun _ ?s rest] =>
                  rewrite (invocationsFor_other key key' st s N eq_refl) in I1
              end.
              exact I1.
    + cbn [notBefore unsettled callersOf] in *.
      destruct (decide (key' = key)) as [->|N]; [discriminate|].
      cbn [cacheStep].
      destruct (inFlight st !! key') as [waiting'|]; [|exact (IH st C B U)].
      match goal with
      | |- context [cacheRun _ ?s rest] =>
          assert (C' : cached ttl time0 key (settled s) = None)
      end.
      { cbn [settled]. destruct outcome; [|exact C].
        rewrite cached_store_ne by exact N. exact C. }
      match goal with
      | |- context [cacheRun _ ?s rest] =>
          destruct (IH s C' B U) as (C1 & O1 & I1)
      end.
      cbn [inFlight settled] in I1.
      rewrite lookup_delete_ne in I1 by exact N.
      split; [exact C1|]. split; [|exact I1].
      rewrite O1. unfold observedFor at 1. cbn [observed].
      rewrite observedFor_app, observed_other by exact N. apply app_nil_r.
Qed.

(** C9: calls of [calculate] for one key that arrive while its
    computation is in flight (none was in flight before, no fresh value
    is stored, and the computation settles only after them) invoke the
    supplier once, observe nothing until it settles, and then all
    observe its outcome, a value or a failure alike. *)
Theorem single_flight key time0 evs outcome time st :
  inFlight st !! key = None ->
  cached ttl time0 key (settled st) = None ->
  notBefore time0 key evs = true ->
  unsettled key evs = true ->
  callersOf key evs <> [] ->
  let st1 := cacheRun ttl st evs in
  let st2 := cacheStep ttl st1 (Settle key outcome time) in
  invocationsFor key st2 = Datatypes.S (invocationsFor key st)
  /\ observedFor key st1 = observedFor key st
  /\ observedFor key st2
     = observedFor key st
       ++ List.map (fun caller => (caller, key, outcome)) (callersOf key evs)
  /\ inFlight st2 !! key = None.
Proof.
  intros F C B U N st1 st2.
  destruct (cacheRun_inFlight key time0 evs st C B U) as (_ & O & I).
  rewrite F in I. fold st1 in O, I.
  destruct (callersOf key evs) as [|caller callers] eqn:E; [contradiction|].
  destruct I as [I1 I2].
  subst st2. cbn [cacheStep]. rewrite I1.
  split; [exact I2|]. split; [exact O|]. split.
  - unfold observedFor at 1. cbn [observed].
    rewrite observedFor_app, observed_same, O. reflexivity.
  - cbn [inFlight]. apply lookup_delete_eq.
Qed.

End SingleFlightFacts.

Lemma single_flight_witness :
  let st : CacheState nat :=
    {| settled := ∅; inFlight := ∅; invocations := []; observed := [] |} in
  let evs :=
    [Calculate 1 "develop" 0; Calculate 2 "develop" 5;
     Calculate 3 "prelive" 7; Calculate 4 "develop" 9] in
  let st1 := cacheRun 60 st evs in
  let st2 := cacheStep 60 st1 (Settle "develop" (Ok ["default"; "apps"]) 100) in
  invocationsFor "develop" st2 = 1
  /\ observedFor "develop" st1 = []
  /\ observedFor "develop" st2
     = [(1, "develop", Ok ["default"; "apps"]);
        (2, "develop", Ok ["default"; "apps"]);
        (4, "develop", Ok ["default"; "apps"])]
  /\ inFlight st2 !! "develop" = None.
Proof.
  intros st evs st1 st2.
  destruct (single_flight nat 60 "develop" 0 evs (Ok ["default"; "apps"]) 100
      st)
    as (I & O1 & O2 & F).
  - reflexivity.
  - reflexivity.
  - reflexivity.
  - reflexivity.
  - discriminate.
  - fold st1 in I, O1, O2, F. fold st2 in I, O2, F.
    rewrite I, O1, O2, F. repeat split.
Defined.

(** ** The namespaces of a cluster *)
Section NamespacesFacts.

Context {Json W : Type}.
Variable k8s : Kubernetes Json W.
Variable this : KubernetesClusterRepository.







Lemma calculate_run key (supplier : M Json W (list string)) st :
  calculate k8s key supplier st =
  match cached namespacesTtl (Date_now k8s (world st)) key
          (namespacesCache st) with
  | Some v => (Ok v, st)
  | None =>
      match supplier st with
      | (Ok v, st1) =>
          (Ok v,
           {| world := world st1;
              calls := calls st1;
              events := events st1;
              namespacesCache :=
                store (Date_now k8s (world st1)) key v (namespacesCache st1) |})
      | (Throw e, st1) => (Throw e, st1)
      end
  end.
Proof.
  unfold calculate, bind at 1, now at 1.
  destruct (cached namespacesTtl (Date_now k8s (world st)) key
              (namespacesCache st)) as [v|]; [reflexivity|].
  unfold bind at 1.
  destruct (supplier st) as [[v|e] st1]; reflexivity.
Qed.

(** The cache as [namespaces] runs it, one call at a time, is the cache
    of the event model with a single caller: on a fresh value the caller
    observes it and the supplier is not invoked; otherwise the supplier
    is invoked once, the caller observes its outcome, and a value is
    stored with the time it arrived at. *)
Lemma calculate_single_caller key (supplier : M Json W (list string)) st :
  let time := Date_now k8s (world st) in
  let cache0 : CacheState unit :=
    {| settled := namespacesCache st; inFlight := ∅;
       invocations := []; observed := [] |} in
  match cached namespacesTtl time key (namespacesCache st) with
  | Some v =>
      calculate k8s key supplier st = (Ok v, st)
      /\ observed (cacheStep namespacesTtl cache0 (Calculate tt key time))
         = [(tt, key, Ok v)]
      /\ invocations (cacheStep namespacesTtl cache0 (Calculate tt key time))
         = []
  | None =>
      let r := fst (supplier st) in
      let st1 := snd (supplier st) in
      let cache2 :=
        cacheRun namespacesTtl cache0
          [Calculate tt key time;
           Settle key r (Date_now k8s (world st1))] in
      fst (calculate k8s key supplier st) = r
      /\ observed cache2 = [(tt, key, r)]
      /\ invocations cache2 = [key]
      /\ (namespacesCache st1 = namespacesCache st ->
          namespacesCache (snd (calculate k8s key supplier st))
          = settled cache2)
  end.
Proof.
  intros time cache0. rewrite calculate_run. fold time.
  destruct (cached namespacesTtl time key (namespacesCache st)) as [v|] eqn:C.
  - split; [reflexivity|].
    cbn [cacheStep]. subst cache0. cbn [settled]. rewrite C.
    split; reflexivity.
  - cbv zeta. subst cache0.
    cbn [cacheRun List.fold_left cacheStep settled inFlight].
    rewrite C, lookup_empty. cbn [inFlight]. rewrite lookup_insert_eq.
    cbn [observed invocations settled app List.map].
    destruct (supplier st) as [[v|e] st1]; cbn [fst snd namespacesCache].
    + repeat split. intros ->. reflexivity.
    + repeat split. intros ->. reflexivity.
Qed.

End NamespacesFacts.

Example namespaces_test :
  fst (namespaces testKubernetes testRepository "develop" (testState
      testCluster))
  = Ok ["default"].
Proof. vm_compute. reflexivity. Qed.


(** * Further properties of the gateway *)

(** ** Names of images *)

Lemma contains_before_self p s : contains p (before p s) = false.
Proof.
  induction s as [|c rest IH]; [reflexivity|].
  cbn [before]. destruct (p c) eqn:P; [reflexivity|].
  cbn [contains]. rewrite P, IH. reflexivity.
Qed.

Lemma contains_afterLast p q s :
  contains q s = false -> contains q (afterLast p s) = false.
Proof.
  induction s as [|c rest IH]; [reflexivity|].
  cbn [contains afterLast]. intros C. apply orb_false_iff in C.
  destruct C as [C1 C2].
  destruct (contains p rest); [exact (IH C2)|].
  destruct (p c); [exact C2|].
  cbn [contains]. rewrite C1, C2. reflexivity.
Qed.

Lemma contains_afterLast_self p s : contains p (afterLast p s) = false.
Proof.
  induction s as [|c rest IH]; [reflexivity|].
  cbn [afterLast]. destruct (contains p rest) eqn:C; [exact IH|].
  destruct (p c) eqn:P; [exact C|].
  cbn [contains]. rewrite P, C. reflexivity.
Qed.

(** X1: the name of an image is a plain path segment: whatever the url,
    the name [createImage] derives holds no [/], no [@] and no [:]. *)
Theorem createImage_name_plain {Json} (cs : option (list (V1Container Json)))
  image :
  createImage cs = Some image ->
  contains isSlash (image_name image) = false
  /\ contains isAtOrColon (image_name image) = false.
Proof.
  destruct cs as [[|c rest]|]; try discriminate.
  intros [= <-]. cbn [image_name].
  rewrite first_split, lastOf_split. split.
  - apply contains_afterLast_self.
  - apply contains_afterLast, contains_before_self.
Qed.

Lemma createImage_name_plain_witness :
  contains isSlash "localhost" = false
  /\ contains isAtOrColon "localhost" = false.
Proof.
  apply (createImage_name_plain
           (Some [mkContainer "localhost:5000/api:v2" tt])
           (mkImage "localhost:5000/api:v2" "localhost" None)).
  reflexivity.
Defined.

(** ** Readiness of a pod *)

(** The first condition of type [Ready], as [find] gives it. *)
Lemma find_ready (cs : list V1PodCondition) :
  match List.find (fun c => String.eqb (condition_type c) "Ready") cs with
  | Some readyCondition => String.eqb (condition_status readyCondition) "True"
  | None => false
  end = true
  <-> exists pre post,
        cs = pre ++ mkCondition "Ready" "True" :: post
        /\ Forall (fun c => condition_type c <> "Ready") pre.
Proof.
  induction cs as [|x rest IH]; cbn [List.find].
  - split; [discriminate|]. intros (pre & post & E & _).
    destruct pre; discriminate.
  - destruct (String.eqb (condition_type x) "Ready") eqn:T.
    + apply String.eqb_eq in T. rewrite String.eqb_eq. split.
      * intros S. exists [], rest. destruct x as [t s]. cbn in T, S.
        subst t s. split; [reflexivity|constructor].
      * intros ([|p pre] & post & E & F).
        -- injection E as ->. reflexivity.
        -- injection E as -> _. inversion F; contradiction.
    + apply String.eqb_neq in T. rewrite IH. split.
      * intros (pre & post & -> & F). exists (x :: pre), post.
        split; [reflexivity|]. constructor; assumption.
      * intros ([|p pre] & post & E & F).
        -- injection E as ->. destruct T. reflexivity.
        -- injection E as -> ->. exists pre, post.
           split; [reflexivity|]. inversion F; assumption.
Qed.

(** X2: a pod is reported ready exactly when its status has conditions
    and the first of them of type [Ready] has the status [True]. A
    status without conditions ([undefined]), or without a condition of
    type [Ready], or whose first such condition has another status,
    reports the pod as not ready. *)
Theorem isReady_iff (st : V1PodStatus) :
  (isReady st = true
   <-> exists cs pre post,
         conditions st = Some cs
         /\ cs = pre ++ mkCondition "Ready" "True" :: post
         /\ Forall (fun c => condition_type c <> "Ready") pre)
  /\ (conditions st = None -> isReady st = false).
Proof.
  unfold isReady. destruct (conditions st) as [cs|].
  - split; [|discriminate]. rewrite find_ready. split.
    + intros (pre & post & E & F). exists cs, pre, post. auto.
    + intros (cs' & pre & post & [= <-] & E & F). exists pre, post. auto.
  - split; [|reflexivity]. split; [discriminate|].
    intros (cs & pre & post & E & _). discriminate.
Qed.

(** A pod that is ready, one whose first [Ready] condition says [False],
    one without conditions. *)
Example isReady_test :
  isReady (mkPodStatus None
             (Some [mkCondition "Initialized" "True";
                    mkCondition "Ready" "True"])) = true
  /\ isReady (mkPodStatus None
                (Some [mkCondition "Ready" "False";
                       mkCondition "Ready" "True"])) = false
  /\ isReady (mkPodStatus None None) = false.
Proof. repeat split. Qed.

(** ** Methods that take a group *)
Section GroupFacts.

Context {Json W : Type}.
Variable k8s : Kubernetes Json W.
Variable JSON_stringify : V1beta2Deployment Json -> string.
Variable this : KubernetesClusterRepository.

(** X3: for a cluster the gateway has no configuration of, every method
    that takes a group throws the error naming the cluster, before it
    sends any request: the state is left as it was. *)
Theorem unknown_cluster_throws group st :
  configs this !! group_cluster group = None ->
  let e :=
    Error ("Config for cluster " +:+ group_cluster group
           +:+ " could not be found") in
  pods k8s this group st = (Throw e, st)
  /\ deployments k8s this group st = (Throw e, st)
  /\ scalers k8s this group st = (Throw e, st)
  /\ takeSnapshot k8s this group st = (Throw e, st)
  /\ (forall deployment targetImage,
        updateDeployment k8s this group deployment targetImage st
        = (Throw e, st))
  /\ (forall snapshot ignoreImage,
        applySnapshot k8s JSON_stringify this group snapshot ignoreImage st
        = (Throw e, st)).
Proof.
  intros N e.
  assert (B : build this (group_cluster group) = Throw e).
  { unfold build, getConfig. rewrite N. reflexivity. }
  unfold pods, deployments, scalers, takeSnapshot, updateDeployment,
    applySnapshot.
  unfold bind, lift. rewrite B. repeat split.
Qed.

Lemma getNamespace_nonempty group : getNamespace group <> "".
Proof.
  unfold getNamespace. destruct (group_namespace group) as [ns|];
    [|discriminate].
  destruct (String.eqb ns "") eqn:E; [discriminate|].
  apply String.eqb_neq. exact E.
Qed.

(** X4: no request of a method that takes a group goes to an empty
    namespace: an empty namespace of the group counts as absent, and a
    namespace that is not empty is used as it is given. *)
Theorem requests_have_namespace group :
  getNamespace group <> ""
  /\ (group_namespace group = Some "" -> getNamespace group = "default")
  /\ (forall ns, group_namespace group = Some ns -> ns <> "" ->
        getNamespace group = ns)
  /\ (forall st c,
        In c (sent (pods k8s this group) st)
        \/ In c (sent (deployments k8s this group) st)
        \/ In c (sent (scalers k8s this group) st)
        \/ In c (sent (takeSnapshot k8s this group) st)
        \/ (exists deployment targetImage,
              In c (sent (updateDeployment k8s this group deployment
                            targetImage) st))
        \/ (exists snapshot ignoreImage,
              In c (sent (applySnapshot k8s JSON_stringify this group
                            snapshot ignoreImage) st)) ->
        exists ns, callNamespace c = Some ns /\ ns <> "").
Proof.
  split; [apply getNamespace_nonempty|]. split; [|split].
  - unfold getNamespace. intros ->. reflexivity.
  - unfold getNamespace. intros ns -> N.
    apply String.eqb_neq in N. rewrite N. reflexivity.
  - intros st c I. exists (getNamespace group).
    split; [|apply getNamespace_nonempty].
    destruct I as [I|[I|[I|[I|[(dep & img & I)|(snap & ign & I)]]]]].
    + exact (pods_namespace k8s this group st c I).
    + exact (deployments_namespace k8s this group st c I).
    + exact (scalers_namespace k8s this group st c I).
    + exact (takeSnapshot_namespace k8s this group st c I).
    + exact (updateDeployment_namespace k8s this group dep img st c I).
    + exact (applySnapshot_namespace k8s JSON_stringify this group snap ign
               st c I).
Qed.

(** Whether a deployment needs an update does not depend on what the
    server assigns: a target that agrees with the current deployment in
    name, namespace, annotations and spec needs no update, whatever the
    status and the other metadata of the two. *)
Lemma needsUpdate_ignores_status (current target : V1beta2Deployment Json) :
  meta_name (metadata current) = meta_name (metadata target) ->
  meta_namespace (metadata current) = meta_namespace (metadata target) ->
  meta_annotations (metadata current) = meta_annotations (metadata target) ->
  spec current = spec target ->
  needsUpdate JSON_stringify (Some current) target = false.
Proof.
  intros N S A P. unfold needsUpdate, minifyDeployment.
  rewrite N, S, A, P. rewrite String.eqb_refl. reflexivity.
Qed.

End GroupFacts.

Lemma unknown_cluster_throws_witness :
  let group := mkServerGroup "live" None in
  let st := testState testCluster in
  let e := Error "Config for cluster live could not be found" in
  pods testKubernetes testRepository group st = (Throw e, st)
  /\ deployments testKubernetes testRepository group st = (Throw e, st)
  /\ scalers testKubernetes testRepository group st = (Throw e, st)
  /\ takeSnapshot testKubernetes testRepository group st = (Throw e, st)
  /\ (forall deployment targetImage,
        updateDeployment testKubernetes testRepository group deployment
          targetImage st
        = (Throw e, st))
  /\ (forall snapshot ignoreImage,
        applySnapshot testKubernetes testStringify testRepository group
          snapshot ignoreImage st
        = (Throw e, st)).
Proof.
  apply (unknown_cluster_throws testKubernetes testStringify testRepository
           (mkServerGroup "live" None) (testState testCluster)).
  vm_compute. reflexivity.
Defined.

(** ** Snapshots *)
Section SnapshotFacts.

Context {Json W : Type}.
Variable k8s : Kubernetes Json W.
Variable JSON_stringify : V1beta2Deployment Json -> string.
Variable this : KubernetesClusterRepository.

Lemma findCurrent_own (items : list (V1beta2Deployment Json)) d :
  NoDup (List.map (fun x => meta_name (metadata x)) items) ->
  In d items ->
  findCurrent items (meta_name (metadata d)) = Some d.
Proof.
  unfold findCurrent. induction items as [|x rest IH]; [intros _ []|].
  cbn [List.map List.find]. intros N I. inversion N as [|n ns NI N']; subst.
  destruct I as [->|I]; [rewrite String.eqb_refl; reflexivity|].
  destruct (String.eqb (meta_name (metadata x)) (meta_name (metadata d)))
    eqn:E; [|exact (IH N' I)].
  apply String.eqb_eq in E. exfalso. apply NI. rewrite E.
  apply in_map_iff. exists d. auto.
Qed.

(** Putting its own first image into a deployment changes nothing. *)
Lemma setImage_own (t : V1beta2Deployment Json) c cs :
  containersOf t = c :: cs -> setImage t (container_image c) = Ok t.
Proof.
  destruct t as [av k m [[tm [cs0 po]] so ks] stt].
  unfold containersOf, setImage.
  cbn. intros ->. destruct c. reflexivity.
Qed.

Lemma substituteImage_own ignoreImage (d : V1beta2Deployment Json) :
  substituteImage ignoreImage (Some d) (minifyDeployment d)
  = Ok (minifyDeployment d).
Proof.
  unfold substituteImage. destruct ignoreImage; [|reflexivity].
  destruct (containersOf d) as [|c cs] eqn:E; [reflexivity|].
  cbn [createImage image_url]. apply (setImage_own _ c cs). exact E.
Qed.

Lemma needsUpdate_own (d : V1beta2Deployment Json) :
  needsUpdate JSON_stringify (Some d) (minifyDeployment d) = false.
Proof.
  unfold needsUpdate.
  change (minifyDeployment (minifyDeployment d)) with (minifyDeployment d).
  rewrite String.eqb_refl. reflexivity.
Qed.

Lemma plannedUpdates_own ignoreImage (items l : list (V1beta2Deployment Json)) :
  NoDup (List.map (fun x => meta_name (metadata x)) items) ->
  (forall d, In d l -> In d items) ->
  plannedUpdates JSON_stringify items ignoreImage
    (List.map
       (fun d => mkSnapshotDeployment (meta_name (metadata d))
                   (minifyDeployment d)) l)
  = ([], None).
Proof.
  intros N. induction l as [|d rest IH]; intros S; [reflexivity|].
  cbn [List.map plannedUpdates snapshot_name snapshot_data].
  rewrite (findCurrent_own items d N (S d (or_introl eq_refl))).
  rewrite substituteImage_own, needsUpdate_own, IH; [reflexivity|].
  intros d' I. apply S. right. exact I.
Qed.

Lemma takeSnapshot_run group st api items w1 :
  build this (group_cluster group) = Ok api ->
  listNamespacedDeployment k8s api (getNamespace group) (world st)
  = (Ok items, w1) ->
  takeSnapshot k8s this group st
  = (Ok (mkSnapshot
           (List.map
              (fun d => mkSnapshotDeployment (meta_name (metadata d))
                          (minifyDeployment d)) items)),
     {| world := w1;
        calls := calls st
                 ++ [ListNamespacedDeployment Json api (getNamespace group)];
        events := events st;
        namespacesCache := namespacesCache st |}).
Proof.
  intros B L. unfold takeSnapshot, bind, lift, request. rewrite B, L.
  reflexivity.
Qed.

(** X6: a snapshot taken of a cluster changes nothing when it is applied
    to the cluster as it was: [applySnapshot], with or without
    [ignoreImage], lists the deployments, sends no replace request, emits
    no event and returns. (The names of the deployments in the listing
    are distinct.) *)
Theorem snapshot_of_cluster_changes_nothing group ignoreImage st st1
  api items w1 w2 :
  build this (group_cluster group) = Ok api ->
  listNamespacedDeployment k8s api (getNamespace group) (world st)
  = (Ok items, w1) ->
  listNamespacedDeployment k8s api (getNamespace group) (world st1)
  = (Ok items, w2) ->
  NoDup (List.map (fun d => meta_name (metadata d)) items) ->
  exists snapshot,
    fst (takeSnapshot k8s this group st) = Ok snapshot
    /\ List.map (@snapshot_name Json) (deployments_of snapshot)
       = List.map (fun d => meta_name (metadata d)) items
    /\ applySnapshot k8s JSON_stringify this group snapshot ignoreImage st1
       = (Ok tt,
          {| world := w2;
             calls :=
               calls st1
               ++ [ListNamespacedDeployment Json api (getNamespace group)];
             events := events st1;
             namespacesCache := namespacesCache st1 |}).
Proof.
  intros B L L1 N. eexists.
  rewrite (takeSnapshot_run group st api items w1 B L). cbn [fst].
  split; [reflexivity|]. split.
  - cbn [deployments_of]. rewrite List.map_map. reflexivity.
  - rewrite (applySnapshot_run k8s JSON_stringify this group _ ignoreImage
               st1 api items w2 B L1).
    cbn [deployments_of].
    rewrite (plannedUpdates_own ignoreImage items items N (fun d I => I)).
    reflexivity.
Qed.

Lemma substituteImage_cases ignoreImage current
  (target target' : V1beta2Deployment Json) :
  substituteImage ignoreImage current target = Ok target' ->
  target' = target
  \/ (ignoreImage = true /\ exists url, setImage target url = Ok target').
Proof.
  unfold substituteImage. destruct ignoreImage; [|intros [= <-]; auto].
  destruct current as [c|]; [|intros [= <-]; auto].
  destruct (createImage (Some (containersOf c))) as [image|];
    [|intros [= <-]; auto].
  intros S. right. split; [reflexivity|]. exists (image_url image). exact S.
Qed.

(** What [setImage] leaves as it is: everything but the image of the
    first container. *)
Lemma setImage_keeps (t t' : V1beta2Deployment Json) url :
  setImage t url = Ok t' ->
  apiVersion t' = apiVersion t /\ kind t' = kind t
  /\ metadata t' = metadata t /\ status t' = status t
  /\ spec_other (spec t') = spec_other (spec t)
  /\ spec_keys (spec t') = spec_keys (spec t)
  /\ template_metadata (spec_template (spec t'))
     = template_metadata (spec_template (spec t))
  /\ podSpec_other (template_spec (spec_template (spec t')))
     = podSpec_other (template_spec (spec_template (spec t)))
  /\ List.tl (containersOf t') = List.tl (containersOf t)
  /\ List.map (@container_other Json) (containersOf t')
     = List.map (@container_other Json) (containersOf t)
  /\ List.map (@container_image Json) (containersOf t')
     = url :: List.tl (List.map (@container_image Json) (containersOf t)).
Proof.
  unfold setImage, containersOf.
  destruct (containers (template_spec (spec_template (spec t))))
    as [|c cs]; [discriminate|].
  intros [= <-]. cbn. repeat split.
Qed.

(** X7: whatever comes of it, [applySnapshot] sends nothing but the
    listing and replace requests for deployments the snapshot records,
    all through the API of the group's cluster; the body of such a
    request is the recorded data, or, with [ignoreImage], the recorded
    data with another image in its first container and nothing else
    changed: not the version and the kind, the metadata, the status, the
    other fields and the keys of the spec, the metadata of the template,
    the other fields of the pod's spec, the containers after the first,
    the other fields of the first container. *)
Theorem applySnapshot_sends_only group snapshot ignoreImage st c :
  In c (sent (applySnapshot k8s JSON_stringify this group snapshot
                ignoreImage) st) ->
  exists api,
    build this (group_cluster group) = Ok api
    /\ (c = ListNamespacedDeployment Json api (getNamespace group)
        \/ exists d body,
             In d (deployments_of snapshot)
             /\ c = ReplaceNamespacedDeployment api (snapshot_name d)
                      (getNamespace group) body
             /\ (body = snapshot_data d
                 \/ (ignoreImage = true
                     /\ apiVersion body = apiVersion (snapshot_data d)
                     /\ kind body = kind (snapshot_data d)
                     /\ metadata body = metadata (snapshot_data d)
                     /\ status body = status (snapshot_data d)
                     /\ spec_other (spec body)
                        = spec_other (spec (snapshot_data d))
                     /\ spec_keys (spec body)
                        = spec_keys (spec (snapshot_data d))
                     /\ template_metadata (spec_template (spec body))
                        = template_metadata
                            (spec_template (spec (snapshot_data d)))
                     /\ podSpec_other
                          (template_spec (spec_template (spec body)))
                        = podSpec_other
                            (template_spec
                               (spec_template (spec (snapshot_data d))))
                     /\ List.tl (containersOf body)
                        = List.tl (containersOf (snapshot_data d))
                     /\ List.map (@container_other Json) (containersOf body)
                        = List.map (@container_other Json)
                            (containersOf (snapshot_data d))
                     /\ exists url,
                          List.map (@container_image Json) (containersOf body)
                          = url
                            :: List.tl
                                 (List.map (@container_image Json)
                                    (containersOf (snapshot_data d)))))).
Proof.
  intros I.
  destruct (build this (group_cluster group)) as [api|e] eqn:B.
  2:{ unfold sent in I.
      rewrite (applySnapshot_no_api k8s JSON_stringify this group snapshot
                 ignoreImage st e B) in I.
      cbn [snd] in I. rewrite drop_all in I. destruct I. }
  exists api. split; [reflexivity|].
  destruct (listNamespacedDeployment k8s api (getNamespace group) (world st))
    as [[items|e] w1] eqn:L.
  2:{ unfold sent in I.
      rewrite (applySnapshot_no_listing k8s JSON_stringify this group snapshot
                 ignoreImage st api e w1 B L) in I.
      cbn [snd calls] in I. rewrite drop_app_length in I.
      destruct I as [<-|[]]. left. reflexivity. }
  rewrite (applySnapshot_sent k8s JSON_stringify this group snapshot
             ignoreImage st api items w1 B L) in I.
  destruct I as [<-|I]; [left; reflexivity|right].
  unfold replaceRequests in I. apply in_map_iff in I.
  destruct I as ([name body] & <- & I).
  apply plannedUpdates_In in I. destruct I as (d & Id & <- & S & _).
  exists d, body. split; [exact Id|]. split; [reflexivity|].
  apply substituteImage_cases in S.
  destruct S as [->|(-> & url & S)]; [left; reflexivity|right].
  apply setImage_keeps in S.
  destruct S as (A & K & M & St & So & Sk & Tm & Po & Tl & Co & Im).
  repeat split; auto. exists url. exact Im.
Qed.

(** X8: with [ignoreImage], the first recorded deployment without
    containers whose deployment in the cluster runs an image stops the
    batch with a [TypeError]: the deployments recorded before it have been dealt
    with, those after it are not looked at, and no event reports what
    was done. *)
Theorem applySnapshot_stops_at_bare_target group snapshot st api items w1
  before d after current :
  build this (group_cluster group) = Ok api ->
  listNamespacedDeployment k8s api (getNamespace group) (world st)
  = (Ok items, w1) ->
  deployments_of snapshot = before ++ d :: after ->
  snd (plannedUpdates JSON_stringify items true before) = None ->
  containersOf (snapshot_data d) = [] ->
  findCurrent items (snapshot_name d) = Some current ->
  containersOf current <> [] ->
  (exists message,
     fst (applySnapshot k8s JSON_stringify this group snapshot true st)
     = Throw (TypeError message))
  /\ sent (applySnapshot k8s JSON_stringify this group snapshot true) st
     = ListNamespacedDeployment Json api (getNamespace group)
       :: replaceRequests api (getNamespace group)
            (fst (plannedUpdates JSON_stringify items true before))
  /\ emitted (applySnapshot k8s JSON_stringify this group snapshot true) st
     = [].
Proof.
  intros B L E T C F N.
  assert (P : plannedUpdates JSON_stringify items true
                (deployments_of snapshot)
              = (fst (plannedUpdates JSON_stringify items true before),
                 Some (TypeError "Cannot set property 'image' of undefined"))).
  { rewrite E, plannedUpdates_app.
    destruct (plannedUpdates JSON_stringify items true before) as [u1 t].
    cbn [snd fst] in *. subst t.
    cbn [plannedUpdates]. unfold substituteImage. rewrite F.
    destruct (containersOf current) as [|c cs]; [contradiction|].
    cbn [createImage image_url]. unfold setImage.
    unfold containersOf in C. rewrite C. rewrite app_nil_r. reflexivity. }
  rewrite (applySnapshot_sent k8s JSON_stringify this group snapshot true st
             api items w1 B L).
  rewrite (applySnapshot_emitted k8s JSON_stringify this group snapshot true
             st api items w1 B L).
  rewrite (applySnapshot_run k8s JSON_stringify this group snapshot true st
             api items w1 B L).
  rewrite P. cbn [fst].
  destruct (replaceAll k8s api (getNamespace group)
              (fst (plannedUpdates JSON_stringify items true before)) w1)
    as [outcomes w2].
  cbn [fst]. split; [eexists; reflexivity|]. split; reflexivity.
Qed.

End SnapshotFacts.

Section StatusFacts.

Context {Json W : Type}.
Variable k8s : Kubernetes Json W.
Variable JSON_stringify : V1beta2Deployment Json -> string.
Variable this : KubernetesClusterRepository.

(** A target with the spec of the current deployment has its image
    already. *)
Lemma substituteImage_same_spec ignoreImage
  (current target : V1beta2Deployment Json) :
  spec current = spec target ->
  substituteImage ignoreImage (Some current) target = Ok target.
Proof.
  intros E. unfold substituteImage. destruct ignoreImage; [|reflexivity].
  assert (C : containersOf current = containersOf target)
    by (unfold containersOf; rewrite E; reflexivity).
  rewrite C. destruct (containersOf target) as [|c cs] eqn:T; [reflexivity|].
  cbn [createImage image_url]. exact (setImage_own target c cs T).
Qed.

(** X5: a change of status alone never makes [applySnapshot] replace a
    deployment: when every recorded deployment is in the cluster with
    the recorded name and namespace, the recorded annotations, entry by
    entry in the same order, and the recorded spec, its keys in the same
    order, then, whatever the version, the kind, the status and the
    other metadata on either side and with or without [ignoreImage],
    [applySnapshot] lists the deployments, sends no replace request,
    emits no event and returns. (The same fields in another order do not
    count as the same: they print differently and are replaced.) *)
Theorem applySnapshot_ignores_status group snapshot ignoreImage st
  api items w1 :
  build this (group_cluster group) = Ok api ->
  listNamespacedDeployment k8s api (getNamespace group) (world st)
  = (Ok items, w1) ->
  (forall d, In d (deployments_of snapshot) ->
     exists current,
       findCurrent items (snapshot_name d) = Some current
       /\ meta_name (metadata current) = meta_name (metadata (snapshot_data d))
       /\ meta_namespace (metadata current)
          = meta_namespace (metadata (snapshot_data d))
       /\ meta_annotations (metadata current)
          = meta_annotations (metadata (snapshot_data d))
       /\ spec current = spec (snapshot_data d)) ->
  applySnapshot k8s JSON_stringify this group snapshot ignoreImage st
  = (Ok tt,
     {| world := w1;
        calls := calls st
                 ++ [ListNamespacedDeployment Json api (getNamespace group)];
        events := events st;
        namespacesCache := namespacesCache st |}).
Proof.
  intros B L A.
  rewrite (applySnapshot_run k8s JSON_stringify this group snapshot
             ignoreImage st api items w1 B L).
  assert (P : plannedUpdates JSON_stringify items ignoreImage
                (deployments_of snapshot) = ([], None)).
  { induction (deployments_of snapshot) as [|d rest IH]; [reflexivity|].
    cbn [plannedUpdates].
    destruct (A d (or_introl eq_refl)) as (current & F & N & S & An & Sp).
    rewrite F, (substituteImage_same_spec ignoreImage current _ Sp).
    rewrite (needsUpdate_ignores_status JSON_stringify current _ N S An Sp).
    rewrite IH; [reflexivity|].
    intros d' I. apply A. right. exact I. }
  rewrite P. reflexivity.
Qed.

End StatusFacts.

Lemma applySnapshot_ignores_status_witness :
  applySnapshot testKubernetes orderedStringify testRepository testGroup
    (mkSnapshot
       [mkSnapshotDeployment "web"
          (minifyDeployment
             (testDeployment "web" "registry/web:v5" "replicas: 2"));
        mkSnapshotDeployment "api"
          (minifyDeployment
             (testDeployment "api" "registry/api:v2" "replicas: 1"))])
    false (testState testCluster)
  = (Ok tt,
     {| world := testCluster;
        calls := calls (testState testCluster)
                 ++ [ListNamespacedDeployment string testApi
                       (getNamespace testGroup)];
        events := events (testState testCluster);
        namespacesCache := namespacesCache (testState testCluster) |}).
Proof.
  apply (applySnapshot_ignores_status testKubernetes orderedStringify
           testRepository testGroup _ false (testState testCluster) testApi
           testCluster testCluster).
  - vm_compute. reflexivity.
  - reflexivity.
  - intros d [<-|[<-|[]]]; eexists; repeat split; reflexivity.
Defined.

Lemma snapshot_of_cluster_changes_nothing_witness :
  exists snapshot,
    fst (takeSnapshot testKubernetes testRepository testGroup
           (testState testCluster)) = Ok snapshot
    /\ List.map (@snapshot_name string) (deployments_of snapshot)
       = List.map (fun d => meta_name (metadata d)) testCluster
    /\ applySnapshot testKubernetes testStringify testRepository testGroup
         snapshot true (testState testCluster)
       = (Ok tt,
          {| world := testCluster;
             calls :=
               calls (testState testCluster)
               ++ [ListNamespacedDeployment string testApi
                     (getNamespace testGroup)];
             events := events (testState testCluster);
             namespacesCache := namespacesCache (testState testCluster) |}).
Proof.
  apply (snapshot_of_cluster_changes_nothing testKubernetes testStringify
           testRepository testGroup true (testState testCluster)
           (testState testCluster) testApi testCluster testCluster testCluster).
  - vm_compute. reflexivity.
  - reflexivity.
  - reflexivity.
  - repeat constructor; cbn; intuition discriminate.
Defined.

Lemma applySnapshot_sends_only_witness :
  exists api,
    build testRepository (group_cluster testGroup) = Ok api
    /\ (ReplaceNamespacedDeployment testApi "api" "default"
          (minifyDeployment
             (testDeployment "api" "registry/api:v2" "replicas: 3"))
        = ListNamespacedDeployment string api (getNamespace testGroup)
        \/ exists d body,
             In d (deployments_of testSnapshot)
             /\ ReplaceNamespacedDeployment testApi "api" "default"
                  (minifyDeployment
                     (testDeployment "api" "registry/api:v2" "replicas: 3"))
                = ReplaceNamespacedDeployment api (snapshot_name d)
                    (getNamespace testGroup) body
             /\ (body = snapshot_data d
                 \/ (true = true
                     /\ apiVersion body = apiVersion (snapshot_data d)
                     /\ kind body = kind (snapshot_data d)
                     /\ metadata body = metadata (snapshot_data d)
                     /\ status body = status (snapshot_data d)
                     /\ spec_other (spec body)
                        = spec_other (spec (snapshot_data d))
                     /\ spec_keys (spec body)
                        = spec_keys (spec (snapshot_data d))
                     /\ template_metadata (spec_template (spec body))
                        = template_metadata
                            (spec_template (spec (snapshot_data d)))
                     /\ podSpec_other
                          (template_spec (spec_template (spec body)))
                        = podSpec_other
                            (template_spec
                               (spec_template (spec (snapshot_data d))))
                     /\ List.tl (containersOf body)
                        = List.tl (containersOf (snapshot_data d))
                     /\ List.map (@container_other string) (containersOf body)
                        = List.map (@container_other string)
                            (containersOf (snapshot_data d))
                     /\ exists url,
                          List.map (@container_image string) (containersOf body)
                          = url
                            :: List.tl
                                 (List.map (@container_image string)
                                    (containersOf (snapshot_data d)))))).
Proof.
  apply (applySnapshot_sends_only testKubernetes testStringify testRepository
           testGroup testSnapshot true (testState testCluster)).
  vm_compute. right. right. left. reflexivity.
Defined.

Lemma applySnapshot_stops_at_bare_target_witness :
  (exists message,
     fst (applySnapshot testKubernetes testStringify testRepository testGroup
            testSnapshotWithBare true (testState testClusterWithJob))
     = Throw (TypeError message))
  /\ sent (applySnapshot testKubernetes testStringify testRepository testGroup
             testSnapshotWithBare true) (testState testClusterWithJob)
     = ListNamespacedDeployment string testApi (getNamespace testGroup)
       :: replaceRequests testApi (getNamespace testGroup)
            (fst (plannedUpdates testStringify testClusterWithJob true
                    [mkSnapshotDeployment "api"
                       (minifyDeployment
                          (testDeployment "api" "registry/api:v1"
                             "replicas: 3"))]))
  /\ emitted (applySnapshot testKubernetes testStringify testRepository
                testGroup testSnapshotWithBare true)
       (testState testClusterWithJob)
     = [].
Proof.
  apply (applySnapshot_stops_at_bare_target testKubernetes testStringify
           testRepository testGroup testSnapshotWithBare
           (testState testClusterWithJob) testApi testClusterWithJob
           testClusterWithJob
           [mkSnapshotDeployment "api"
              (minifyDeployment
                 (testDeployment "api" "registry/api:v1" "replicas: 3"))]
           (mkSnapshotDeployment "job" (testBare "job"))
           [mkSnapshotDeployment "web"
              (minifyDeployment
                 (testDeployment "web" "registry/web:v5" "replicas: 4"))]
           (testDeployment "job" "registry/job:v7" "replicas: 1")).
  - vm_compute. reflexivity.
  - reflexivity.
  - reflexivity.
  - reflexivity.
  - reflexivity.
  - reflexivity.
  - discriminate.
Defined.

(** On the test cluster the batch stops after [api]: [api] is replaced,
    [web], recorded with other replicas, is not, and nothing is
    reported. *)
Example applySnapshot_test_bare :
  sent (applySnapshot testKubernetes testStringify testRepository testGroup
          testSnapshotWithBare true) (testState testClusterWithJob)
  = [ListNamespacedDeployment string testApi "default";
     ReplaceNamespacedDeployment testApi "api" "default"
       (minifyDeployment
          (testDeployment "api" "registry/api:v2" "replicas: 3"))]
  /\ events (snd (applySnapshot testKubernetes testStringify testRepository
                    testGroup testSnapshotWithBare true
                    (testState testClusterWithJob)))
     = [].
Proof. vm_compute. split; reflexivity. Qed.

(** ** Updating a deployment *)
Section UpdateFacts.

Context {Json W : Type}.
Variable k8s : Kubernetes Json W.
Variable this : KubernetesClusterRepository.

Lemma updateDeployment_run group deployment targetImage st api :
  build this (group_cluster group) = Ok api ->
  updateDeployment k8s this group deployment targetImage st =
  let name := deployment_name deployment in
  let namespace := getNamespace group in
  let read := ReadNamespacedDeployment Json api name namespace in
  match readNamespacedDeployment k8s api name namespace (world st) with
  | (Throw e, w1) =>
      (Throw e,
       {| world := w1; calls := calls st ++ [read]; events := events st;
          namespacesCache := namespacesCache st |})
  | (Ok response, w1) =>
      match setImage (minifyDeployment response) (image_url targetImage) with
      | Throw e =>
          (Throw e,
           {| world := w1; calls := calls st ++ [read]; events := events st;
              namespacesCache := namespacesCache st |})
      | Ok target =>
          let (r, w2) :=
            replaceNamespacedDeployment k8s api name namespace target w1 in
          (match r with
           | Ok result =>
               Ok {| deployment_name := meta_name (metadata result);
                     deployment_image :=
                       createImage (Some (containersOf result)) |}
           | Throw e => Throw e
           end,
           {| world := w2;
              calls :=
                calls st
                ++ [read;
                    ReplaceNamespacedDeployment api name namespace target];
              events := events st;
              namespacesCache := namespacesCache st |})
      end
  end.
Proof.
  intros B. unfold updateDeployment. unfold bind at 1, lift at 1. rewrite B.
  unfold bind at 1, request at 1.
  destruct (readNamespacedDeployment k8s api (deployment_name deployment)
              (getNamespace group) (world st)) as [[response|e] w1];
    [|reflexivity].
  unfold bind at 1, lift at 1.
  destruct (setImage (minifyDeployment response) (image_url targetImage))
    as [target|e]; [|reflexivity].
  unfold bind at 1, request at 1. cbn [world calls events namespacesCache].
  destruct (replaceNamespacedDeployment k8s api (deployment_name deployment)
              (getNamespace group) target w1) as [[result|e] w2];
    cbn zeta; rewrite <- app_assoc; reflexivity.
Qed.

(** X9: a replace request of [updateDeployment] is for the deployment
    named, comes second after the request that read it, and carries what
    was read, minified, with the url of the target image in its first
    container: the name, namespace and annotations, the other fields and
    the keys of the spec, the metadata of the template, the other fields
    of the pod's spec, the containers after the first and the other
    fields of the first are as read; the version, the kind, the status
    and the other metadata are left out. *)
Theorem updateDeployment_replaces_image group deployment targetImage st
  a name ns body :
  In (ReplaceNamespacedDeployment a name ns body)
     (sent (updateDeployment k8s this group deployment targetImage) st) ->
  name = deployment_name deployment
  /\ ns = getNamespace group
  /\ (exists image,
        createImage (Some (containersOf body)) = Some image
        /\ image_url image = image_url targetImage)
  /\ apiVersion body = None
  /\ kind body = None
  /\ status body = None
  /\ meta_other (metadata body) = None
  /\ exists response w1,
       build this (group_cluster group) = Ok a
       /\ readNamespacedDeployment k8s a name ns (world st)
          = (Ok response, w1)
       /\ metadata body = metadata (minifyDeployment response)
       /\ spec_other (spec body) = spec_other (spec response)
       /\ spec_keys (spec body) = spec_keys (spec response)
       /\ template_metadata (spec_template (spec body))
          = template_metadata (spec_template (spec response))
       /\ podSpec_other (template_spec (spec_template (spec body)))
          = podSpec_other (template_spec (spec_template (spec response)))
       /\ List.tl (containersOf body) = List.tl (containersOf response)
       /\ List.map (@container_other Json) (containersOf body)
          = List.map (@container_other Json) (containersOf response)
       /\ List.map (@container_image Json) (containersOf body)
          = image_url targetImage
            :: List.tl (List.map (@container_image Json)
                          (containersOf response))
       /\ sent (updateDeployment k8s this group deployment targetImage) st
          = [ReadNamespacedDeployment Json a name ns;
             ReplaceNamespacedDeployment a name ns body].
Proof.
  unfold sent.
  destruct (build this (group_cluster group)) as [api|e] eqn:B.
  2:{ unfold updateDeployment, bind, lift. rewrite B. cbn [snd].
      rewrite drop_all. intros []. }
  rewrite (updateDeployment_run group deployment targetImage st api B).
  cbv zeta.
  destruct (readNamespacedDeployment k8s api (deployment_name deployment)
              (getNamespace group) (world st)) as [[response|e] w1] eqn:R.
  2:{ cbn [snd calls]. rewrite drop_app_length.
      intros [I|[]]. discriminate. }
  destruct (setImage (minifyDeployment response) (image_url targetImage))
    as [target|e] eqn:S.
  2:{ cbn [snd calls]. rewrite drop_app_length.
      intros [I|[]]. discriminate. }
  destruct (replaceNamespacedDeployment k8s api (deployment_name deployment)
              (getNamespace group) target w1) as [r w2].
  cbn [snd calls]. rewrite drop_app_length.
  intros [I|[I|[]]]; [discriminate|].
  injection I as <- <- <- <-.
  pose proof (setImage_keeps _ _ _ S)
    as (A & K & M & St & So & Sk & Tm & Po & T & O & Im).
  split; [reflexivity|]. split; [reflexivity|]. split.
  { destruct (containersOf target) as [|c cs] eqn:C; [discriminate|].
    eexists. split; [reflexivity|]. cbn [image_url].
    cbn [List.map] in Im. injection Im as -> _. reflexivity. }
  split; [rewrite A; reflexivity|].
  split; [rewrite K; reflexivity|].
  split; [rewrite St; reflexivity|].
  split; [rewrite M; reflexivity|].
  exists response, w1. repeat split; auto.
Qed.

(** X10: [updateDeployment] on a deployment that is read without
    containers throws a [TypeError] once it has read it: it sends no
    replace request. *)
Theorem updateDeployment_without_containers group deployment targetImage st
  api response w1 :
  build this (group_cluster group) = Ok api ->
  readNamespacedDeployment k8s api (deployment_name deployment)
    (getNamespace group) (world st) = (Ok response, w1) ->
  containersOf response = [] ->
  exists message,
    updateDeployment k8s this group deployment targetImage st
    = (Throw (TypeError message),
       {| world := w1;
          calls :=
            calls st
            ++ [ReadNamespacedDeployment Json api
                  (deployment_name deployment) (getNamespace group)];
          events := events st;
          namespacesCache := namespacesCache st |}).
Proof.
  intros B R C.
  rewrite (updateDeployment_run group deployment targetImage st api B).
  cbv zeta. rewrite R. unfold setImage.
  unfold containersOf in C. cbn [minifyDeployment spec]. rewrite C.
  eexists. reflexivity.
Qed.

(** X11: a snapshot records what [deployments] reports: started in the
    same state, [takeSnapshot] succeeds where [deployments] does, leaves
    the same state, and has one entry for each deployment reported, in
    the same order, under the same name, whose recorded data carries the
    image reported. *)
Theorem takeSnapshot_records_deployments group st reported st' :
  deployments k8s this group st = (Ok reported, st') ->
  exists snapshot,
    takeSnapshot k8s this group st = (Ok snapshot, st')
    /\ List.map (@snapshot_name Json) (deployments_of snapshot)
       = List.map deployment_name reported
    /\ List.map
         (fun entry => createImage (Some (containersOf (snapshot_data entry))))
         (deployments_of snapshot)
       = List.map deployment_image reported.
Proof.
  unfold deployments, takeSnapshot, bind, lift, request.
  destruct (build this (group_cluster group)) as [api|e]; [|discriminate].
  destruct (listNamespacedDeployment k8s api (getNamespace group) (world st))
    as [[items|e] w1]; [|discriminate].
  unfold ret. intros [= <- <-]. eexists. split; [reflexivity|].
  cbn [deployments_of]. rewrite !List.map_map. split; reflexivity.
Qed.

End UpdateFacts.

Lemma updateDeployment_replaces_image_witness :
  let body :=
    minifyDeployment (testDeployment "api" "registry/api:v3" "replicas: 1") in
  exists response w1,
    build testRepository (group_cluster testGroup) = Ok testApi
    /\ readNamespacedDeployment testKubernetes testApi "api" "default"
         (world (testState testCluster))
       = (Ok response, w1)
    /\ metadata body = metadata (minifyDeployment response)
    /\ spec_other (spec body) = spec_other (spec response)
    /\ spec_keys (spec body) = spec_keys (spec response)
    /\ template_metadata (spec_template (spec body))
       = template_metadata (spec_template (spec response))
    /\ podSpec_other (template_spec (spec_template (spec body)))
       = podSpec_other (template_spec (spec_template (spec response)))
    /\ List.tl (containersOf body) = List.tl (containersOf response)
    /\ List.map (@container_other string) (containersOf body)
       = List.map (@container_other string) (containersOf response)
    /\ List.map (@container_image string) (containersOf body)
       = "registry/api:v3"
         :: List.tl (List.map (@container_image string)
                       (containersOf response))
    /\ sent (updateDeployment testKubernetes testRepository testGroup
               (mkDeployment "api" None)
               (mkImage "registry/api:v3" "api" (Some "v3")))
         (testState testCluster)
       = [ReadNamespacedDeployment string testApi "api" "default";
          ReplaceNamespacedDeployment testApi "api" "default" body].
Proof.
  intros body.
  destruct (updateDeployment_replaces_image testKubernetes testRepository
              testGroup (mkDeployment "api" None)
              (mkImage "registry/api:v3" "api" (Some "v3"))
              (testState testCluster) testApi "api" "default" body)
    as (_ & _ & _ & _ & _ & _ & _ & R).
  - vm_compute. right. left. reflexivity.
  - exact R.
Defined.

Lemma updateDeployment_without_containers_witness :
  exists message,
    updateDeployment testKubernetes testRepository testGroup
      (mkDeployment "job" None) (mkImage "registry/job:v8" "job" None)
      (testState [testBare "job"])
    = (Throw (TypeError message),
       {| world := [testBare "job"];
          calls :=
            calls (testState [testBare "job"])
            ++ [ReadNamespacedDeployment string testApi
                  (deployment_name (mkDeployment "job" None))
                  (getNamespace testGroup)];
          events := events (testState [testBare "job"]);
          namespacesCache := namespacesCache (testState [testBare "job"]) |}).
Proof.
  apply (updateDeployment_without_containers testKubernetes testRepository
           testGroup (mkDeployment "job" None)
           (mkImage "registry/job:v8" "job" None)
           (testState [testBare "job"]) testApi (testBare "job")
           [testBare "job"]).
  - vm_compute. reflexivity.
  - reflexivity.
  - reflexivity.
Defined.

Lemma takeSnapshot_records_deployments_witness :
  exists snapshot,
    takeSnapshot testKubernetes testRepository testGroup
      (testState testCluster)
    = (Ok snapshot,
       snd (deployments testKubernetes testRepository testGroup
              (testState testCluster)))
    /\ List.map (@snapshot_name string) (deployments_of snapshot)
       = List.map deployment_name
           [mkDeployment "api" (Some (mkImage "registry/api:v2" "api" None));
            mkDeployment "web" (Some (mkImage "registry/web:v5" "web" None))]
    /\ List.map
         (fun entry => createImage (Some (containersOf (snapshot_data entry))))
         (deployments_of snapshot)
       = List.map deployment_image
           [mkDeployment "api" (Some (mkImage "registry/api:v2" "api" None));
            mkDeployment "web" (Some (mkImage "registry/web:v5" "web" None))].
Proof.
  apply (takeSnapshot_records_deployments testKubernetes testRepository
           testGroup (testState testCluster)).
  vm_compute. reflexivity.
Defined.

(** ** The pages of pods and of images *)
Section PagesFacts.

Context {S : Type}.
Variable d : Dispatcher S.
Variable call_pods : ServerGroup -> Async S (list Pod).
Variable call_tags : string -> Async S (list string).
Variable call_image : string -> string -> Async S Image.
Variable imageText : string.

Lemma loadPods_query cluster knownNamespaces :
  forall views s,
    Views.loadPods call_pods cluster knownNamespaces views s =
    match Views.podsOfAll call_pods cluster knownNamespaces s with
    | (Ok more, s') => (Ok (views ++ more), s')
    | (Throw e, s') => (Throw e, s')
    end.
Proof.
  induction knownNamespaces as [|namespace rest IH]; intros views s.
  - cbn. rewrite app_nil_r. reflexivity.
  - cbn [Views.loadPods Views.podsOfAll]. unfold bind at 1 2.
    destruct (call_pods (mkServerGroup cluster (Some namespace)) s)
      as [[knownPods|e] s1]; [|reflexivity].
    rewrite IH. unfold bind.
    destruct (Views.podsOfAll call_pods cluster rest s1) as [[more|e] s2];
      [|reflexivity].
    cbn. rewrite <- app_assoc. reflexivity.
Qed.

Lemma podsOfAll_names cluster knownNamespaces :
  forall s views s',
    Views.podsOfAll call_pods cluster knownNamespaces s = (Ok views, s') ->
    List.map namespaceView_name views = knownNamespaces.
Proof.
  induction knownNamespaces as [|namespace rest IH]; intros s views s'.
  - cbn. intros [= <- _]. reflexivity.
  - cbn [Views.podsOfAll]. unfold bind.
    destruct (call_pods (mkServerGroup cluster (Some namespace)) s)
      as [[knownPods|e] s1]; [|discriminate].
    destruct (Views.podsOfAll call_pods cluster rest s1) as [[more|e] s2] eqn:E;
      [|discriminate].
    cbn. intros [= <- _]. cbn. rewrite (IH _ _ _ E). reflexivity.
Qed.

(** X12: the page of pods collects no errors. It fails with the
    exception of the namespaces query, or of the first pods query that
    fails, and asks nothing more after that; when all succeed it shows
    exactly the namespaces the cluster is known to have, in their order,
    each with its pods. *)
Theorem pods_page_fails_fast cluster s :
  match call_namespaces d cluster s with
  | (Throw e, s1) => Views.pods d call_pods cluster s = (Throw e, s1)
  | (Ok knownNamespaces, s1) =>
      match Views.podsOfAll call_pods cluster knownNamespaces s1 with
      | (Throw e, s2) => Views.pods d call_pods cluster s = (Throw e, s2)
      | (Ok views, s2) =>
          Views.pods d call_pods cluster s
          = (Ok {| podsView_title := "Spacegun ∞ Pods ∞ " +:+ cluster;
                   podsView_name := cluster;
                   podsView_namespaces := views |}, s2)
          /\ List.map namespaceView_name views = knownNamespaces
      end
  end.
Proof.
  assert (R : Views.pods d call_pods cluster s =
              match call_namespaces d cluster s with
              | (Throw e, s1) => (Throw e, s1)
              | (Ok knownNamespaces, s1) =>
                  match Views.podsOfAll call_pods cluster knownNamespaces s1
                  with
                  | (Throw e, s2) => (Throw e, s2)
                  | (Ok views, s2) =>
                      (Ok {| podsView_title :=
                               "Spacegun ∞ Pods ∞ " +:+ cluster;
                             podsView_name := cluster;
                             podsView_namespaces := views |}, s2)
                  end
              end).
  { unfold Views.pods. unfold bind at 1.
    destruct (call_namespaces d cluster s) as [[knownNamespaces|e] s1];
      [|reflexivity].
    unfold bind at 1. rewrite loadPods_query.
    destruct (Views.podsOfAll call_pods cluster knownNamespaces s1)
      as [[views|e] s2]; reflexivity. }
  rewrite R.
  destruct (call_namespaces d cluster s) as [[knownNamespaces|e] s1];
    [|reflexivity].
  destruct (Views.podsOfAll call_pods cluster knownNamespaces s1)
    as [[views|e] s2] eqn:E; [|reflexivity].
  split; [reflexivity|]. exact (podsOfAll_names _ _ _ _ _ E).
Qed.

Lemma existsb_tag tag knownTags :
  List.existsb (fun t => String.eqb tag t) knownTags = true
  <-> In tag knownTags.
Proof.
  rewrite List.existsb_exists. split.
  - intros (t & I & E). apply String.eqb_eq in E. subst t. exact I.
  - intros I. exists tag. split; [exact I|apply String.eqb_refl].
Qed.

(** X13: the page of images looks for the tag asked for, or for
    [latest] when no tag or an empty one is given, among the tags of the
    image: when it is among them, the page asks for the image under that
    tag and shows what the query returns; otherwise it shows no focused
    image and makes no query. It lists one image for each known tag,
    under the name asked for. *)
Theorem images_page_focus image tag s view s' :
  Views.images call_tags call_image imageText image tag s = (Ok view, s') ->
  exists knownTags s1 looked,
    call_tags image s = (Ok knownTags, s1)
    /\ (forall t, tag = Some t -> t <> "" -> looked = t)
    /\ (tag = None \/ tag = Some "" -> looked = "latest")
    /\ imagesView_name view = image
    /\ imagesView_images view = List.map (mkTaggedImage image) knownTags
    /\ (In looked knownTags ->
        exists focused,
          call_image image looked s1 = (Ok focused, s')
          /\ imagesView_focusedImage view = Some focused)
    /\ (~ In looked knownTags ->
        imagesView_focusedImage view = None /\ s' = s1).
Proof.
  assert (T1 : forall t, tag = Some t -> t <> "" -> Views.tagOrLatest tag = t).
  { intros t -> N. cbn. apply String.eqb_neq in N. rewrite N. reflexivity. }
  assert (T2 : tag = None \/ tag = Some "" -> Views.tagOrLatest tag = "latest")
    by (intros [->| ->]; reflexivity).
  unfold Views.images. unfold bind at 1.
  destruct (call_tags image s) as [[knownTags|e] s1]; [|discriminate].
  unfold bind at 1.
  destruct (List.existsb (fun t => String.eqb (Views.tagOrLatest tag) t)
              knownTags) eqn:X.
  - apply existsb_tag in X. unfold bind at 1.
    destruct (call_image image (Views.tagOrLatest tag) s1)
      as [[focused|e] s2] eqn:C; [|discriminate].
    unfold ret. intros R. injection R as <- <-.
    exists knownTags, s1, (Views.tagOrLatest tag).
    cbn [imagesView_name imagesView_images imagesView_focusedImage].
    split; [reflexivity|]. split; [exact T1|]. split; [exact T2|].
    split; [reflexivity|]. split; [reflexivity|].
    split; [intros _; exists focused; auto|].
    intros N; contradiction.
  - assert (N : ~ In (Views.tagOrLatest tag) knownTags).
    { intros I. apply existsb_tag in I. rewrite I in X. discriminate. }
    unfold ret. intros R. injection R as <- <-.
    exists knownTags, s1, (Views.tagOrLatest tag).
    cbn [imagesView_name imagesView_images imagesView_focusedImage].
    split; [reflexivity|]. split; [exact T1|]. split; [exact T2|].
    split; [reflexivity|]. split; [reflexivity|].
    split; [intros I; contradiction|].
    intros _; auto.
Qed.

End PagesFacts.

Lemma images_page_focus_witness :
  let view :=
    {| imagesView_title := "Spacegun ∞ Images ∞ [object Object]";
       imagesView_name := "api";
       imagesView_images :=
         [mkTaggedImage "api" "v1"; mkTaggedImage "api" "latest"];
       imagesView_focusedImage :=
         Some (mkImage "registry/api:v1" "api" (Some "v1")) |} in
  exists knownTags s1 looked,
    testTags "api" tt = (Ok knownTags, s1)
    /\ (forall t, Some "v1" = Some t -> t <> "" -> looked = t)
    /\ (Some "v1" = None \/ Some "v1" = Some "" -> looked = "latest")
    /\ imagesView_name view = "api"
    /\ imagesView_images view = List.map (mkTaggedImage "api") knownTags
    /\ (In looked knownTags ->
        exists focused,
          testImage "api" looked s1 = (Ok focused, tt)
          /\ imagesView_focusedImage view = Some focused)
    /\ (~ In looked knownTags ->
        imagesView_focusedImage view = None /\ tt = s1).
Proof.
  intros view.
  apply (images_page_focus testTags testImage "[object Object]" "api"
           (Some "v1") tt view tt).
  reflexivity.
Defined.

(** On the test registry: the tag asked for, no tag, a tag the image
    does not have. *)
Example images_page_test :
  List.map
    (fun tag =>
       match Views.images testTags testImage "[object Object]" "api" tag tt
       with
       | (Ok view, _) => imagesView_focusedImage view
       | (Throw _, _) => None
       end)
    [Some "v1"; None; Some ""; Some "v9"]
  = [Some (mkImage "registry/api:v1" "api" (Some "v1"));
     Some (mkImage "registry/api:latest" "api" (Some "latest"));
     Some (mkImage "registry/api:latest" "api" (Some "latest"));
     None].
Proof. reflexivity. Qed.

(** On the test dispatcher the page of pods of [live] fails as the
    namespaces query does. *)
Example pods_page_test :
  Views.pods testDispatcher (fun _ => ret []) "live" tt
  = (Throw (Rejected "connect ECONNREFUSED"), tt)
  /\ fst (Views.pods testDispatcher (fun _ => ret []) "develop" tt)
     = Ok {| podsView_title := "Spacegun ∞ Pods ∞ develop";
             podsView_name := "develop";
             podsView_namespaces := [mkNamespaceView "default" []] |}.
Proof. split; reflexivity. Qed.

(** ** The gateway of a configuration file *)
Section FromConfigFacts.

Variable KubeConfigFile : Type.
Variable getContexts : KubeConfigFile -> list string.
Variable currentServer : KubeConfigFile -> string -> option string.

Lemma lookup_fold_insert (f : string -> KubeConfig) names :
  forall (m : gmap string KubeConfig) key,
    (In key names ->
     List.fold_left (fun configs name => <[name := f name]> configs) names m
     !! key = Some (f key))
    /\ (~ In key names ->
        List.fold_left (fun configs name => <[name := f name]> configs) names m
        !! key = m !! key).
Proof.
  induction names as [|name rest IH]; intros m key.
  - split; [intros []|reflexivity].
  - cbn [List.fold_left]. destruct (IH (<[name := f name]> m) key) as [Y N].
    destruct (in_dec String.string_dec key rest) as [R|R].
    + split; [intros _; exact (Y R)|].
      intros C. exfalso. apply C. right. exact R.
    + rewrite (N R). split.
      * intros [->|I]; [apply lookup_insert_eq|contradiction].
      * intros C. apply lookup_insert_ne. intros ->. apply C. left.
        reflexivity.
Qed.

(** X14: the gateway made from a configuration file knows exactly the
    contexts of the file as clusters: for a context, [getConfig] gives
    the copy of the configuration switched to that context, however
    often and wherever the file lists it, so that the API of a cluster
    is built with its own context current; for any other name it throws
    the error naming the cluster. *)
Theorem fromConfig_getConfig config namespaces cluster :
  let this := fromConfig getContexts currentServer config namespaces in
  (In cluster (getContexts config) ->
   getConfig this cluster = Ok (setCurrentContext currentServer config cluster))
  /\ (~ In cluster (getContexts config) ->
      getConfig this cluster
      = Throw (Error ("Config for cluster " +:+ cluster
                      +:+ " could not be found")))
  /\ (forall api,
        build this cluster = Ok api ->
        In cluster (getContexts config)
        /\ kube_context (api_authentication api) = cluster
        /\ currentServer config cluster = Some (api_server api))
  /\ allowedNamespaces this = namespaces.
Proof.
  intros this.
  destruct (lookup_fold_insert (setCurrentContext currentServer config)
              (getContexts config) ∅ cluster) as [Y N].
  assert (L : configs this !! cluster
              = List.fold_left
                  (fun configs name =>
                     <[name := setCurrentContext currentServer config name]>
                       configs)
                  (getContexts config) ∅ !! cluster) by reflexivity.
  split; [|split; [|split; [|reflexivity]]].
  - intros I. unfold getConfig. rewrite L, (Y I). reflexivity.
  - intros C. unfold getConfig. rewrite L, (N C), lookup_empty. reflexivity.
  - intros api. unfold build, getConfig. rewrite L.
    destruct (in_dec String.string_dec cluster (getContexts config))
      as [I|C].
    + rewrite (Y I). unfold getServer. cbn [setCurrentContext kube_server].
      destruct (currentServer config cluster) as [server|] eqn:E;
        [|discriminate].
      intros [= <-]. cbn. auto.
    + rewrite (N C), lookup_empty. discriminate.
Qed.

End FromConfigFacts.

(** A file with the contexts [develop], [live] and [develop] again. *)
Example fromConfig_test :
  let this :=
    fromConfig (fun _ : unit => ["develop"; "live"; "develop"])
      (fun _ name => Some ("https://k8s." +:+ name)) tt None in
  build this "live"
  = Ok (mkApi "https://k8s.live"
          (mkKubeConfig "live" (Some "https://k8s.live")))
  /\ build this "prelive"
     = Throw (Error "Config for cluster prelive could not be found").
Proof. vm_compute. split; reflexivity. Qed.
